(** * movie-rating-predictor: the matrix helpers and the submission writer

    A shallow embedding of the three helper functions of [randomforest.py]
    ([build_rating_matrix], [create_learning_matrices], [make_submission])
    together with the part of the SciPy sparse-matrix interface they call.

    Python objects live in a store and are passed by reference; a call either
    returns a value or raises, and in both cases leaves a store behind.
    Integers are unbounded ([Z]); ratings are integers (the data set's
    ratings are integral), so that the sum of duplicate entries is exact. *)

From Stdlib Require Import Ascii.
From stdpp Require Import base list strings gmap pretty.

Open Scope Z_scope.

(** ** Exceptions and the state-and-exception monad *)

(** The Python exception classes that the modelled code can raise.
    [SystemError] stands for following a reference to no object, which a
    Python program cannot do; it keeps [load] total. *)
Inductive exn : Type :=
  | IndexError
  | ValueError
  | TypeError
  | SystemError.

Global Instance exn_eq_dec : EqDecision exn.
Proof. solve_decision. Defined.

(** A computation over a state [S]: it returns the new state and either the
    raised exception or the value. *)
Definition Py (S A : Type) : Type := S → S * (exn + A).

Global Instance Py_ret {S} : MRet (Py S) := λ A x s, (s, inr x).

Global Instance Py_bind {S} : MBind (Py S) := λ A B f m s,
  match m s with
  | (s', inr a) => f a s'
  | (s', inl e) => (s', inl e)
  end.

Definition raise {S A} (e : exn) : Py S A := λ s, (s, inl e).

Definition from_result {S A} (r : exn + A) : Py S A := λ s, (s, r).

(** ** Sparse matrices as store objects *)

Inductive fmt : Type := coo | csr | csc.

Global Instance fmt_eq_dec : EqDecision fmt.
Proof. solve_decision. Defined.

(** A sparse matrix object: its storage format, its [shape] and its value
    [toarray], the dense array of [shape.1] rows of [shape.2] entries that
    SciPy's [toarray()] gives (duplicate coordinates already summed). *)
Record spmatrix : Type := SpMatrix {
  format : fmt;
  shape : nat * nat;
  toarray : list (list Z)
}.

Global Instance spmatrix_eq_dec : EqDecision spmatrix.
Proof. solve_decision. Defined.

(** [A[i]] and [row[j]] for indices already validated. *)
Definition getrow (A : list (list Z)) (i : nat) : list Z := default [] (A !! i).
Definition getitem (row : list Z) (j : nat) : Z := default 0 (row !! j).
Definition getcol (A : list (list Z)) (j : nat) : list Z :=
  (λ row, getitem row j) <$> A.

(** The array [A] has [M] rows of [N] entries. *)
Definition dims (A : list (list Z)) (M N : nat) : Prop :=
  length A = M ∧ Forall (λ row, length row = N) A.

(** The array has the dimensions that [shape] announces. *)
Definition wf_matrix (R : spmatrix) : Prop :=
  dims (toarray R) (shape R).1 (shape R).2.

Abbreviation ref := nat (only parsing).
Abbreviation store := (list spmatrix) (only parsing).

Definition alloc (o : spmatrix) : Py store ref :=
  λ h, (h ++ [o], inr (length h)).

Definition load (r : ref) : Py store spmatrix :=
  λ h, match h !! r with
       | Some o => (h, inr o)
       | None => (h, inl SystemError)
       end.

(** ** The SciPy operations used by the helpers *)

(** [numpy.max] and [numpy.min] of a one-dimensional array; [None] on an
    empty array. *)
Definition np_max (l : list Z) : option Z :=
  match l with
  | [] => None
  | x :: xs => Some (foldr Z.max x xs)
  end.

Definition np_min (l : list Z) : option Z :=
  match l with
  | [] => None
  | x :: xs => Some (foldr Z.min x xs)
  end.

Definition zeros (M N : nat) : list (list Z) := replicate M (replicate N 0).

(** [B[i, j] += v] *)
Definition add_at (B : list (list Z)) (i j : nat) (v : Z) : list (list Z) :=
  alter (alter (λ x, x + v) j) i B.

(** The dense value of a coordinate list: every entry is added to its cell,
    so that duplicate coordinates are summed. *)
Definition coo_todense (M N : nat) (entries : list (Z * Z * Z)) : list (list Z) :=
  foldl (λ B '(i, j, v), add_at B (Z.to_nat i) (Z.to_nat j) v) (zeros M N) entries.

(** [sparse.coo_matrix((data, (row, col)))] with no [shape] argument: the
    shape is inferred from the largest indices; an empty index array, arrays
    of different lengths and negative indices are refused. *)
Definition coo_matrix (data row col : list Z) : Py store ref :=
  match np_max row, np_max col, np_min row, np_min col with
  | Some maxr, Some maxc, Some minr, Some minc =>
      if bool_decide (length row = length data ∧ length col = length data) then
        let M := maxr + 1 in
        let N := maxc + 1 in
        if bool_decide (minr < 0 ∨ minc < 0) then raise ValueError
        else alloc (SpMatrix coo (Z.to_nat M, Z.to_nat N)
                      (coo_todense (Z.to_nat M) (Z.to_nat N)
                         (zip (zip row col) data)))
      else raise ValueError
  | _, _, _, _ => raise ValueError
  end.

(** [A.tocsr()]: a CSR matrix is returned as it is, any other format is
    converted into a new object. *)
Definition tocsr (r : ref) : Py store ref :=
  o ← load r;
  if decide (format o = csr) then mret r
  else alloc (SpMatrix csr (shape o) (toarray o)).

Definition tocsc (r : ref) : Py store ref :=
  o ← load r;
  if decide (format o = csc) then mret r
  else alloc (SpMatrix csc (shape o) (toarray o)).

(** [x[x < 0] += len]: a negative index counts from the end of the axis. *)
Definition norm_index (len : nat) (x : Z) : nat :=
  Z.to_nat (if bool_decide (x < 0) then x + Z.of_nat len else x).

(** Validation of an index array against an axis of [len] entries: an empty
    array passes; an index [>= len] or [< -len] raises [IndexError]; a
    negative index counts from the end. *)
Definition asindices (idx : list Z) (len : nat) : exn + list nat :=
  match np_max idx, np_min idx with
  | Some max_indx, Some min_indx =>
      if bool_decide (max_indx >= Z.of_nat len) then inl IndexError
      else if bool_decide (min_indx < - Z.of_nat len) then inl IndexError
      else inr (norm_index len <$> idx)
  | _, _ => inr []
  end.

(** [A[idx]] with an index array: the rows named by [idx], in that order. *)
Definition getitem_rows (r : ref) (idx : list Z) : Py store ref :=
  o ← load r;
  if decide (format o = coo) then raise TypeError
  else
    rows ← from_result (asindices idx (shape o).1);
    alloc (SpMatrix (format o) (length rows, (shape o).2)
             ((λ i, getrow (toarray o) i) <$> rows)).

(** [A[:, idx]] with an index array: the columns named by [idx], in that
    order. *)
Definition getitem_cols (r : ref) (idx : list Z) : Py store ref :=
  o ← load r;
  if decide (format o = coo) then raise TypeError
  else
    cols ← from_result (asindices idx (shape o).2);
    alloc (SpMatrix (format o) ((shape o).1, length cols)
             ((λ row, (λ j, getitem row j) <$> cols) <$> toarray o)).

Definition transpose_fmt (f : fmt) : fmt :=
  match f with
  | coo => coo
  | csr => csc
  | csc => csr
  end.

(** [A.transpose()] *)
Definition transpose (r : ref) : Py store ref :=
  o ← load r;
  alloc (SpMatrix (transpose_fmt (format o)) ((shape o).2, (shape o).1)
           ((λ j, getcol (toarray o) j) <$> seq 0 (shape o).2)).

(** [sparse.hstack((a, b))]: the blocks must have the same number of rows;
    the result is in coordinate format. *)
Definition hstack (a b : ref) : Py store ref :=
  oa ← load a;
  ob ← load b;
  if decide ((shape oa).1 = (shape ob).1) then
    alloc (SpMatrix coo ((shape oa).1, ((shape oa).2 + (shape ob).2)%nat)
             (zip_with app (toarray oa) (toarray ob)))
  else raise ValueError.

(** ** The helpers of [randomforest.py] *)

Definition build_rating_matrix (user_movie_rating_triplets : list (Z * Z * Z))
    : Py store ref :=
  let rows := (λ t, t.1.1) <$> user_movie_rating_triplets in
  let cols := (λ t, t.1.2) <$> user_movie_rating_triplets in
  let training_ratings := (λ t, t.2) <$> user_movie_rating_triplets in
  m ← coo_matrix training_ratings rows cols;
  tocsr m.

Definition create_learning_matrices (rating_matrix : ref)
    (user_movie_pairs : list (Z * Z)) : Py store ref :=
  rating_matrix ← tocsr rating_matrix;
  user_features ← getitem_rows rating_matrix (user_movie_pairs.*1);
  rating_matrix ← tocsc rating_matrix;
  movie_columns ← getitem_cols rating_matrix (user_movie_pairs.*2);
  movie_features ← transpose movie_columns;
  X ← hstack user_features movie_features;
  tocsr X.

(** What a caller observes of a call: the exception, or the object that the
    returned reference denotes in the store the call leaves. *)
Definition outcome (res : store * (exn + ref)) : exn + option spmatrix :=
  match res.2 with
  | inl e => inl e
  | inr x => inr (res.1 !! x)
  end.

(** ** The data wiring of [parameter_tuning] *)

(** [np.hstack((X, y.reshape((-1, 1))))]: the label of every pair becomes its
    third column; arrays of different lengths are refused. *)
Definition np_hstack (pairs : list (Z * Z)) (labels : list Z)
    : exn + list (Z * Z * Z) :=
  if decide (length pairs = length labels) then inr (zip pairs labels)
  else inl ValueError.

(** The learning matrices of the two splits, as [parameter_tuning] builds
    them from what [train_test_split] returns: each split gets the rating
    matrix of its own pairs and labels, and its features are read from that
    matrix. *)
Definition parameter_tuning_matrices (X_ls X_ts : list (Z * Z))
    (y_ls y_ts : list Z) : Py store (ref * ref) :=
  user_movie_rating_triplets_train ← from_result (np_hstack X_ls y_ls);
  user_movie_rating_triplets_test ← from_result (np_hstack X_ts y_ts);
  rating_matrix_train ← build_rating_matrix user_movie_rating_triplets_train;
  rating_matrix_test ← build_rating_matrix user_movie_rating_triplets_test;
  X_train ← create_learning_matrices rating_matrix_train X_ls;
  X_test ← create_learning_matrices rating_matrix_test X_ts;
  mret (X_train, X_test).

(** ** The submission writer *)

(** The part of the outside world that [make_submission] touches: the text
    files by path, and the wall clock as [time.strftime('%d-%m-%Y_%Hh%M')]
    renders it. *)
Record world : Type := World {
  files : gmap string string;
  clock : string
}.

(** [open(path, 'w')]: the file is created, or emptied if it exists. *)
Definition open_w (path : string) : Py world string :=
  λ w, (World (<[path := EmptyString]> (files w)) (clock w), inr path).

(** [handle.write(text)]: the text is appended to the open file. *)
Definition write (handle : string) (text : string) : Py world unit :=
  λ w, (World (alter (λ content, content +:+ text) handle (files w)) (clock w),
        inr tt).

Definition strftime : Py world string := λ w, (w, inr (clock w)).

Definition nl : string := String "010"%char EmptyString.
Definition dquote : string := String "034"%char EmptyString.

(** The first line of every submission file, with its line end:
    the two column names, each between double quotes. *)
Definition header : string :=
  dquote +:+ "USER_ID_MOVIE_ID" +:+ dquote +:+ "," +:+
  dquote +:+ "PREDICTED_RATING" +:+ dquote +:+ nl.

Section submission.
(** Predictions are floating-point numbers; the writer only asks whether
    one is a NaN ([np.isnan]) and for its text (['{}'.format]). *)
Variable prediction : Type.
Variable isnan : prediction → bool.
Variable format_prediction : prediction → string.

(** ['{:d}_{:d},{}\n'.format(user_id, movie_id, prediction)] *)
Definition format_line (user_id movie_id : Z) (p : prediction) : string :=
  pretty user_id +:+ "_" +:+ pretty movie_id +:+ "," +:+
  format_prediction p +:+ nl.

(** The body of the [for] loop over [zip(user_movie_ids, y_predict)]. *)
Fixpoint write_predictions (handle : string)
    (rows : list ((Z * Z) * prediction)) : Py world unit :=
  match rows with
  | [] => mret tt
  | ((user_id, movie_id), p) :: rest =>
      if isnan p then raise ValueError
      else
        write handle (format_line user_id movie_id p);;
        write_predictions handle rest
  end.

(** The [with] block closes the file on the way out, whether the body
    returns or raises: what was written stays in the file. *)
Definition make_submission (y_predict : list prediction)
    (user_movie_ids : list (Z * Z)) (file_name : string) (date : bool)
    : Py world string :=
  file_name ← (if date then
                 now ← strftime;
                 mret (file_name +:+ "_" +:+ now)
               else mret file_name);
  let file_name := file_name +:+ ".txt" in
  handle ← open_w file_name;
  write handle header;;
  write_predictions handle (zip user_movie_ids y_predict);;
  mret file_name.

(** The lines that the loop writes for the rows it is given. *)
Definition row_lines (rows : list ((Z * Z) * prediction)) : list string :=
  (λ r, format_line r.1.1 r.1.2 r.2) <$> rows.

(** The path of the file that a call writes. *)
Definition submission_path (file_name : string) (date : bool) (w : world)
    : string :=
  (if date then file_name +:+ "_" +:+ clock w else file_name) +:+ ".txt".
End submission.

Arguments format_line {prediction} format_prediction user_id movie_id p.
Arguments write_predictions {prediction} isnan format_prediction handle rows.
Arguments make_submission {prediction} isnan format_prediction
  y_predict user_movie_ids file_name date.
Arguments row_lines {prediction} format_prediction rows.

(** The text of a file made of the given lines (each with its line end). *)
Definition concat_lines (lines : list string) : string :=
  foldr String.append EmptyString lines.

(** ** Vocabulary of the properties *)

(** An index that the validation accepts for an axis of [len] entries. *)
Definition in_range (len : nat) (x : Z) : Prop := - Z.of_nat len ≤ x < Z.of_nat len.

Global Instance in_range_dec len x : Decision (in_range len x).
Proof. unfold in_range. apply _. Defined.

(** The feature vector of a query pair: the user's row of the rating matrix
    followed by the movie's column. *)
Definition feature_row (R : spmatrix) (u m : nat) : list Z :=
  getrow (toarray R) u ++ getcol (toarray R) m.

(** Both indices of a query pair are accepted by the index validation. *)
Definition pair_in_range (R : spmatrix) (p : Z * Z) : Prop :=
  in_range (shape R).1 p.1 ∧ in_range (shape R).2 p.2.

Global Instance pair_in_range_dec R p : Decision (pair_in_range R p).
Proof. unfold pair_in_range. apply _. Defined.

(** The matrix that a successful call returns. *)
Definition learning_matrix (R : spmatrix) (pairs : list (Z * Z)) : spmatrix :=
  SpMatrix csr (length pairs, ((shape R).2 + (shape R).1)%nat)
    ((λ p, feature_row R (norm_index (shape R).1 p.1) (norm_index (shape R).2 p.2))
       <$> pairs).

(** [A[i, j]] *)
Definition entry (A : list (list Z)) (i j : nat) : Z := getitem (getrow A i) j.

Definition Zsum (l : list Z) : Z := foldr Z.add 0 l.

(** The ratings that the triplets give for the pair [(u, m)], in input
    order. *)
Definition ratings_of (u m : Z) (triplets : list (Z * Z * Z)) : list Z :=
  (λ t, t.2) <$> filter (λ t, t.1 = (u, m)) triplets.

(** Identifiers are non-negative integers. *)
Definition valid_triplet (t : Z * Z * Z) : Prop := 0 ≤ t.1.1 ∧ 0 ≤ t.1.2.

Global Instance valid_triplet_dec t : Decision (valid_triplet t).
Proof. unfold valid_triplet. apply _. Defined.

(** The identifiers of a pair are non-negative integers. *)
Definition valid_pair (p : Z * Z) : Prop := 0 ≤ p.1 ∧ 0 ≤ p.2.

(** The character [c] does not occur in the string [s]. *)
Fixpoint no_char (c : ascii) (s : string) : Prop :=
  match s with
  | EmptyString => True
  | String c' s' => c' ≠ c ∧ no_char c s'
  end.

(** [m] is the largest element of [l]. *)
Definition is_max (m : Z) (l : list Z) : Prop := m ∈ l ∧ Forall (λ x, x ≤ m) l.

(** The elements of [l] at the positions that [p] lists, in the order of
    [p]; with [p] a permutation of the positions of [l], this is [l]
    permuted by [p]. *)
Definition select {A} (p : list nat) (l : list A) : list A :=
  omap (λ i, l !! i) p.

Definition permute_rows (p : list nat) (X : spmatrix) : spmatrix :=
  SpMatrix (format X) (shape X) (select p (toarray X)).

(** ** Example data *)

(** The rating matrix of the triplets [(0,0,5)] and [(1,1,3)]. *)
Definition ex_R : spmatrix := SpMatrix csr (2%nat, 2%nat) [[5; 0]; [0; 3]].

Definition ex_triplets : list (Z * Z * Z) := [(0, 0, 5); (1, 1, 3)].

Definition ex_pairs : list (Z * Z) := [(0, 1); (1, 0)].


Definition ex_format (p : option string) : string := default "nan" p.


(** * Properties *)

(** ** Running the monad *)

Lemma bind_run {S A B} (m : Py S A) (f : A → Py S B) (s : S) :
  (m ≫= f) s = match m s with
               | (s', inr a) => f a s'
               | (s', inl e) => (s', inl e)
               end.
Proof. reflexivity. Qed.

Lemma load_run (h : store) (r : ref) (o : spmatrix) :
  h !! r = Some o → load r h = (h, inr o).
Proof. intros H. unfold load. by rewrite H. Qed.

Lemma lookup_alloc (h : store) (o : spmatrix) : (h ++ [o]) !! length h = Some o.
Proof. by rewrite list_lookup_middle. Qed.

(** ** Index validation *)

Lemma np_max_spec (l : list Z) (m : Z) :
  np_max l = Some m → m ∈ l ∧ Forall (λ x, x ≤ m) l.
Proof.
  destruct l as [|x xs]; [done|]. simpl. intros [= <-].
  induction xs as [|y ys IH]; simpl.
  - split; [set_solver|]. by constructor.
  - destruct IH as [Hin Hle].
    apply Forall_cons in Hle as [Hx Hys].
    split.
    + destruct (Z.max_spec y (foldr Z.max x ys)) as [[_ ->]|[_ ->]].
      * apply elem_of_cons in Hin as [->|Hin]; [left|do 2 right]; done.
      * right; left.
    + repeat constructor; [lia..|].
      eapply Forall_impl; [exact Hys|]. simpl. lia.
Qed.

Lemma np_min_spec (l : list Z) (m : Z) :
  np_min l = Some m → m ∈ l ∧ Forall (λ x, m ≤ x) l.
Proof.
  destruct l as [|x xs]; [done|]. simpl. intros [= <-].
  induction xs as [|y ys IH]; simpl.
  - split; [set_solver|]. by constructor.
  - destruct IH as [Hin Hle].
    apply Forall_cons in Hle as [Hx Hys].
    split.
    + destruct (Z.min_spec y (foldr Z.min x ys)) as [[_ ->]|[_ ->]].
      * right; left.
      * apply elem_of_cons in Hin as [->|Hin]; [left|do 2 right]; done.
    + repeat constructor; [lia..|].
      eapply Forall_impl; [exact Hys|]. simpl. lia.
Qed.

Lemma asindices_ok (idx : list Z) (len : nat) :
  Forall (in_range len) idx → asindices idx len = inr (norm_index len <$> idx).
Proof.
  intros Hall. unfold asindices.
  destruct (np_max idx) as [mx|] eqn:Hmx; [|by destruct idx].
  destruct (np_min idx) as [mn|] eqn:Hmn; [|by destruct idx].
  apply np_max_spec in Hmx as [Hmx _]. apply np_min_spec in Hmn as [Hmn _].
  rewrite Forall_forall in Hall.
  apply Hall in Hmx. apply Hall in Hmn. unfold in_range in *.
  rewrite !bool_decide_eq_false_2 by lia. done.
Qed.

Lemma asindices_err (idx : list Z) (len : nat) :
  Exists (λ x, ¬ in_range len x) idx → asindices idx len = inl IndexError.
Proof.
  intros (x & Hx & Hout)%Exists_exists. unfold asindices.
  destruct (np_max idx) as [mx|] eqn:Hmx; [|destruct idx; [set_solver|done]].
  destruct (np_min idx) as [mn|] eqn:Hmn; [|by destruct idx].
  apply np_max_spec in Hmx as [_ Hmx]. apply np_min_spec in Hmn as [_ Hmn].
  rewrite Forall_forall in Hmx, Hmn.
  apply Hmx in Hx as Hle. apply Hmn in Hx as Hge. unfold in_range in Hout.
  case_bool_decide; [done|]. case_bool_decide; [done|]. lia.
Qed.

(** ** The SciPy operations on the store *)

(** A call only ever adds objects to the store. *)
Lemma tocsr_run (h : store) (r : ref) (o : spmatrix) :
  h !! r = Some o →
  ∃ h' r', tocsr r h = (h', inr r') ∧ h `prefix_of` h' ∧
           h' !! r' = Some (SpMatrix csr (shape o) (toarray o)).
Proof.
  intros Hr. unfold tocsr. rewrite bind_run, (load_run _ _ _ Hr).
  destruct (decide (format o = csr)) as [Hf|Hf].
  - exists h, r. split_and!; [done|done|]. destruct o; simpl in *. by subst.
  - eexists _, _. split_and!; [done|by apply prefix_app_r|apply lookup_alloc].
Qed.

Lemma tocsc_run (h : store) (r : ref) (o : spmatrix) :
  h !! r = Some o →
  ∃ h' r', tocsc r h = (h', inr r') ∧ h `prefix_of` h' ∧
           h' !! r' = Some (SpMatrix csc (shape o) (toarray o)).
Proof.
  intros Hr. unfold tocsc. rewrite bind_run, (load_run _ _ _ Hr).
  destruct (decide (format o = csc)) as [Hf|Hf].
  - exists h, r. split_and!; [done|done|]. destruct o; simpl in *. by subst.
  - eexists _, _. split_and!; [done|by apply prefix_app_r|apply lookup_alloc].
Qed.

Lemma getitem_rows_run (h : store) (r : ref) (o : spmatrix) (idx : list Z) :
  h !! r = Some o → format o ≠ coo →
  getitem_rows r idx h =
    match asindices idx (shape o).1 with
    | inl e => (h, inl e)
    | inr rows =>
        (h ++ [SpMatrix (format o) (length rows, (shape o).2)
                 ((λ i, getrow (toarray o) i) <$> rows)], inr (length h))
    end.
Proof.
  intros Hr Hf. unfold getitem_rows. rewrite bind_run, (load_run _ _ _ Hr).
  rewrite decide_False by done. rewrite bind_run. unfold from_result.
  by destruct (asindices idx (shape o).1).
Qed.

Lemma getitem_cols_run (h : store) (r : ref) (o : spmatrix) (idx : list Z) :
  h !! r = Some o → format o ≠ coo →
  getitem_cols r idx h =
    match asindices idx (shape o).2 with
    | inl e => (h, inl e)
    | inr cols =>
        (h ++ [SpMatrix (format o) ((shape o).1, length cols)
                 ((λ row, (λ j, getitem row j) <$> cols) <$> toarray o)],
         inr (length h))
    end.
Proof.
  intros Hr Hf. unfold getitem_cols. rewrite bind_run, (load_run _ _ _ Hr).
  rewrite decide_False by done. rewrite bind_run. unfold from_result.
  by destruct (asindices idx (shape o).2).
Qed.

Lemma transpose_run (h : store) (r : ref) (o : spmatrix) :
  h !! r = Some o →
  transpose r h =
    (h ++ [SpMatrix (transpose_fmt (format o)) ((shape o).2, (shape o).1)
             ((λ j, getcol (toarray o) j) <$> seq 0 (shape o).2)],
     inr (length h)).
Proof. intros Hr. unfold transpose. by rewrite bind_run, (load_run _ _ _ Hr). Qed.

Lemma hstack_run (h : store) (a b : ref) (oa ob : spmatrix) :
  h !! a = Some oa → h !! b = Some ob → (shape oa).1 = (shape ob).1 →
  hstack a b h =
    (h ++ [SpMatrix coo ((shape oa).1, ((shape oa).2 + (shape ob).2)%nat)
             (zip_with app (toarray oa) (toarray ob))], inr (length h)).
Proof.
  intros Ha Hb Hrows. unfold hstack.
  rewrite bind_run, (load_run _ _ _ Ha), bind_run, (load_run _ _ _ Hb).
  by rewrite decide_True.
Qed.

(** ** Rows and columns of gathered blocks *)

Lemma getitem_fmap {A} (f : A → Z) (l : list A) (k : nat) (a : A) :
  l !! k = Some a → getitem (f <$> l) k = f a.
Proof. intros Hk. unfold getitem. by rewrite list_lookup_fmap, Hk. Qed.

(** Transposing the gathered columns gives, row for row, the columns named
    by the index array. *)
Lemma transpose_gathered (A : list (list Z)) (cols : list nat) :
  (λ k, getcol ((λ row, (λ j, getitem row j) <$> cols) <$> A) k)
    <$> seq 0 (length cols)
  = (λ j, getcol A j) <$> cols.
Proof.
  apply list_eq. intros k. rewrite !list_lookup_fmap.
  destruct (cols !! k) as [j|] eqn:Hk; simpl.
  - rewrite lookup_seq_lt by (by eapply lookup_lt_Some). simpl. f_equal.
    unfold getcol. rewrite <- list_fmap_compose. apply list_fmap_ext.
    intros _ row _. simpl. by apply getitem_fmap.
  - rewrite lookup_seq_ge; [done|]. by apply lookup_ge_None.
Qed.

Lemma hstack_rows (A : list (list Z)) (pairs : list (Z * Z)) (f g : Z → nat) :
  zip_with app ((λ i, getrow A i) <$> (f <$> pairs.*1))
               ((λ j, getcol A j) <$> (g <$> pairs.*2))
  = (λ p, getrow A (f p.1) ++ getcol A (g p.2)) <$> pairs.
Proof. induction pairs as [|[u m] pairs IH]; csimpl; [done|]. f_equal. exact IH. Qed.

(** ** [create_learning_matrices] *)

Lemma pairs_in_range_split (R : spmatrix) (pairs : list (Z * Z)) :
  Forall (pair_in_range R) pairs ↔
  Forall (in_range (shape R).1) pairs.*1 ∧ Forall (in_range (shape R).2) pairs.*2.
Proof.
  rewrite !Forall_fmap, <- Forall_and. apply Forall_iff. by intros [u m].
Qed.

Lemma create_learning_matrices_ok (h : store) (r : ref) (R : spmatrix)
    (pairs : list (Z * Z)) :
  h !! r = Some R → Forall (pair_in_range R) pairs →
  ∃ h' x, create_learning_matrices r pairs h = (h', inr x) ∧
          h `prefix_of` h' ∧ h' !! x = Some (learning_matrix R pairs).
Proof.
  intros Hr [Hus Hms]%pairs_in_range_split. unfold create_learning_matrices.
  rewrite bind_run.
  destruct (tocsr_run _ _ _ Hr) as (h1 & r1 & -> & Hp1 & Hr1).
  rewrite bind_run, (getitem_rows_run _ _ _ _ Hr1) by done. simpl.
  rewrite (asindices_ok _ _ Hus).
  set (UF := SpMatrix _ _ _). rewrite bind_run.
  assert ((h1 ++ [UF]) !! r1 = Some (SpMatrix csr (shape R) (toarray R))) as Hr1'
    by by apply lookup_app_l_Some.
  destruct (tocsc_run _ _ _ Hr1') as (h3 & r3 & -> & Hp3 & Hr3).
  rewrite bind_run, (getitem_cols_run _ _ _ _ Hr3) by done. simpl.
  rewrite (asindices_ok _ _ Hms).
  set (MC := SpMatrix _ _ _). rewrite bind_run.
  rewrite (transpose_run _ _ _ (lookup_alloc h3 MC)).
  set (MF := SpMatrix _ _ _). rewrite bind_run.
  assert ((h3 ++ [MC] ++ [MF]) !! length h1 = Some UF) as HUF.
  { apply lookup_app_l_Some.
    eapply prefix_lookup_Some; [apply lookup_alloc|done]. }
  rewrite <- (assoc_L (++)).
  rewrite (hstack_run _ _ _ UF MF HUF); cycle 1.
  { rewrite (assoc_L (++)). apply lookup_alloc. }
  { simpl. by rewrite !length_fmap. }
  set (X := SpMatrix _ _ _).
  match goal with
  | |- context [tocsr _ (?h6 ++ [X])] =>
      destruct (tocsr_run _ _ X (lookup_alloc h6 X)) as (h7 & x & -> & Hp7 & Hx)
  end.
  exists h7, x. split_and!; [done| |].
  - etrans; [exact Hp1|]. etrans; [by apply prefix_app_r|].
    etrans; [exact Hp3|]. etrans; [|exact Hp7].
    rewrite !(assoc_L (++)). by do 3 apply prefix_app_r.
  - rewrite Hx. unfold learning_matrix, X, UF, MF, MC. simpl.
    by rewrite transpose_gathered, hstack_rows, !length_fmap.
Qed.

Lemma create_learning_matrices_err (h : store) (r : ref) (R : spmatrix)
    (pairs : list (Z * Z)) :
  h !! r = Some R → Exists (λ p, ¬ pair_in_range R p) pairs →
  ∃ h', create_learning_matrices r pairs h = (h', inl IndexError) ∧
        h `prefix_of` h'.
Proof.
  intros Hr Hbad. unfold create_learning_matrices.
  rewrite bind_run.
  destruct (tocsr_run _ _ _ Hr) as (h1 & r1 & -> & Hp1 & Hr1).
  rewrite bind_run, (getitem_rows_run _ _ _ _ Hr1) by done. simpl.
  destruct (decide (Forall (in_range (shape R).1) pairs.*1)) as [Hus|Hus].
  - rewrite (asindices_ok _ _ Hus).
    set (UF := SpMatrix _ _ _). rewrite bind_run.
    assert ((h1 ++ [UF]) !! r1 = Some (SpMatrix csr (shape R) (toarray R))) as Hr1'
      by by apply lookup_app_l_Some.
    destruct (tocsc_run _ _ _ Hr1') as (h3 & r3 & -> & Hp3 & Hr3).
    rewrite bind_run, (getitem_cols_run _ _ _ _ Hr3) by done. simpl.
    rewrite asindices_err.
    + eexists. split; [done|].
      etrans; [exact Hp1|]. etrans; [by apply prefix_app_r|done].
    + apply Exists_fmap. rewrite Forall_fmap in Hus.
      apply Exists_exists in Hbad as ([u m] & Hin & Hout).
      apply Exists_exists. exists (u, m). split; [done|].
      rewrite Forall_forall in Hus. specialize (Hus _ Hin).
      unfold pair_in_range in Hout. simpl in *. tauto.
  - rewrite asindices_err by by apply not_Forall_Exists; [apply _|].
    eexists. split; [done|exact Hp1].
Qed.

(** Every call falls under one of the two lemmas above. *)
Lemma pairs_in_range_or_not (R : spmatrix) (pairs : list (Z * Z)) :
  Forall (pair_in_range R) pairs ∨ Exists (λ p, ¬ pair_in_range R p) pairs.
Proof.
  destruct (decide (Forall (pair_in_range R) pairs)) as [H|H]; [by left|right].
  by apply not_Forall_Exists; [apply _|].
Qed.

(** ** [build_rating_matrix] *)

Lemma dims_zeros (M N : nat) : dims (zeros M N) M N.
Proof.
  unfold dims, zeros. split; [by rewrite length_replicate|].
  apply Forall_replicate. by rewrite length_replicate.
Qed.

Lemma entry_zeros (M N i j : nat) : entry (zeros M N) i j = 0.
Proof.
  unfold entry, getrow, getitem, zeros.
  destruct (replicate M (replicate N 0) !! i) as [row|] eqn:Hi; simpl; [|done].
  apply lookup_replicate in Hi as [-> _].
  destruct (replicate N 0 !! j) as [x|] eqn:Hj; simpl; [|done].
  by apply lookup_replicate in Hj as [-> _].
Qed.

Lemma dims_add_at (A : list (list Z)) (M N i j : nat) (v : Z) :
  dims A M N → dims (add_at A i j v) M N.
Proof.
  intros [Hlen Hrows]. unfold dims, add_at. split; [by rewrite length_alter|].
  apply Forall_alter; [done|]. intros row _ <-. by rewrite length_alter.
Qed.

Lemma entry_add_at (A : list (list Z)) (M N u m i j : nat) (v : Z) :
  dims A M N → (i < M)%nat → (j < N)%nat →
  entry (add_at A u m v) i j =
    if decide (u = i ∧ m = j) then entry A i j + v else entry A i j.
Proof.
  intros [Hlen Hrows] Hi Hj. unfold entry, getrow, add_at.
  destruct (lookup_lt_is_Some_2 A i) as [row Hrow]; [lia|].
  assert (length row = N) as Hrl.
  { rewrite Forall_forall in Hrows. apply Hrows.
    by eapply list_elem_of_lookup_2. }
  destruct (lookup_lt_is_Some_2 row j) as [x Hx]; [lia|].
  destruct (decide (u = i)) as [->|Hne].
  - rewrite list_lookup_alter_eq, Hrow.
    cbn [fmap option_fmap option_map default from_option id]. unfold getitem.
    destruct (decide (m = j)) as [->|Hne].
    + rewrite list_lookup_alter_eq, Hx. simpl. by rewrite decide_True.
    + rewrite list_lookup_alter_ne by done. rewrite decide_False by tauto. done.
  - rewrite list_lookup_alter_ne by done. rewrite decide_False by tauto. done.
Qed.

Lemma entry_foldl_add_at (triplets : list (Z * Z * Z)) (B : list (list Z))
    (M N i j : nat) :
  Forall valid_triplet triplets → dims B M N → (i < M)%nat → (j < N)%nat →
  entry (foldl (λ B '(u, m, v), add_at B (Z.to_nat u) (Z.to_nat m) v) B triplets) i j
  = entry B i j + Zsum (ratings_of (Z.of_nat i) (Z.of_nat j) triplets).
Proof.
  intros Hvalid. revert B.
  induction Hvalid as [|[[u m] v] ts [Hu Hm] _ IH]; intros B HB Hi Hj; simpl.
  - unfold ratings_of. simpl. lia.
  - rewrite IH by eauto using dims_add_at.
    rewrite (entry_add_at _ M N) by done.
    unfold ratings_of. rewrite filter_cons. simpl in *.
    destruct (decide (Z.to_nat u = i ∧ Z.to_nat m = j)) as [[<- <-]|Hne].
    + rewrite !Z2Nat.id by done. rewrite decide_True by done.
      unfold Zsum. csimpl. lia.
    + rewrite decide_False; [done|]. intros [= -> ->]. lia.
Qed.

Lemma entry_coo_todense (triplets : list (Z * Z * Z)) (M N i j : nat) :
  Forall valid_triplet triplets → (i < M)%nat → (j < N)%nat →
  entry (coo_todense M N triplets) i j
  = Zsum (ratings_of (Z.of_nat i) (Z.of_nat j) triplets).
Proof.
  intros Hvalid Hi Hj. unfold coo_todense.
  rewrite (entry_foldl_add_at _ _ M N) by eauto using dims_zeros.
  by rewrite entry_zeros.
Qed.

Lemma dims_coo_todense (triplets : list (Z * Z * Z)) (M N : nat) :
  dims (coo_todense M N triplets) M N.
Proof.
  unfold coo_todense. generalize (dims_zeros M N). generalize (zeros M N).
  induction triplets as [|[[u m] v] ts IH]; intros B HB; simpl; [done|].
  apply IH. by apply dims_add_at.
Qed.

Lemma zip_columns (triplets : list (Z * Z * Z)) :
  zip (zip ((λ t, t.1.1) <$> triplets) ((λ t, t.1.2) <$> triplets))
      ((λ t, t.2) <$> triplets) = triplets.
Proof.
  induction triplets as [|[[u m] v] ts IH]; csimpl; [done|]. by rewrite IH.
Qed.

Lemma build_rating_matrix_run (h : store) (triplets : list (Z * Z * Z))
    (max_u max_m : Z) :
  Forall valid_triplet triplets →
  np_max ((λ t, t.1.1) <$> triplets) = Some max_u →
  np_max ((λ t, t.1.2) <$> triplets) = Some max_m →
  let M := Z.to_nat (max_u + 1) in
  let N := Z.to_nat (max_m + 1) in
  build_rating_matrix triplets h =
    (h ++ [SpMatrix coo (M, N) (coo_todense M N triplets);
           SpMatrix csr (M, N) (coo_todense M N triplets)],
     inr (S (length h))).
Proof.
  intros Hvalid Hu Hm M N. unfold build_rating_matrix, coo_matrix.
  rewrite bind_run, Hu, Hm.
  destruct (np_min ((λ t, t.1.1) <$> triplets)) as [min_u|] eqn:Hminu;
    [|by destruct triplets].
  destruct (np_min ((λ t, t.1.2) <$> triplets)) as [min_m|] eqn:Hminm;
    [|by destruct triplets].
  rewrite bool_decide_eq_true_2 by by rewrite !length_fmap.
  apply np_min_spec in Hminu as [Hminu _]. apply np_min_spec in Hminm as [Hminm _].
  apply list_elem_of_fmap in Hminu as (t1 & -> & Ht1).
  apply list_elem_of_fmap in Hminm as (t2 & -> & Ht2).
  rewrite Forall_forall in Hvalid.
  destruct (Hvalid _ Ht1) as [? _]. destruct (Hvalid _ Ht2) as [_ ?].
  rewrite bool_decide_eq_false_2 by lia.
  rewrite zip_columns. unfold alloc, tocsr. rewrite bind_run.
  rewrite (load_run _ _ _ (lookup_alloc _ _)). simpl.
  unfold alloc. rewrite length_app, <- (assoc_L (++)). simpl.
  do 2 f_equal. lia.
Qed.

(** ** [make_submission] *)

Lemma string_app_nil_r (s : string) : s +:+ EmptyString = s.
Proof.
  induction s as [|c s IH]; [done|].
  change (String c (s +:+ EmptyString) = String c s). by rewrite IH.
Qed.

Lemma string_app_assoc (s1 s2 s3 : string) : (s1 +:+ s2) +:+ s3 = s1 +:+ s2 +:+ s3.
Proof.
  induction s1 as [|c s1 IH]; [done|].
  change (String c ((s1 +:+ s2) +:+ s3) = String c (s1 +:+ s2 +:+ s3)).
  by rewrite IH.
Qed.

Lemma concat_lines_app (l1 l2 : list string) :
  concat_lines (l1 ++ l2) = concat_lines l1 +:+ concat_lines l2.
Proof.
  induction l1 as [|s l1 IH]; simpl; [done|].
  by rewrite IH, string_app_assoc.
Qed.

Lemma write_run (handle text content : string) (fs : gmap string string)
    (now : string) :
  write handle text (World (<[handle := content]> fs) now)
  = (World (<[handle := content +:+ text]> fs) now, inr tt).
Proof. unfold write. simpl. by rewrite alter_insert_eq. Qed.


Section submission_properties.
Context {prediction : Type}.
Variable isnan : prediction → bool.
Variable format_prediction : prediction → string.

Lemma write_predictions_ok (handle content : string) (fs : gmap string string)
    (now : string) (rows : list ((Z * Z) * prediction)) :
  Forall (λ r, isnan r.2 = false) rows →
  write_predictions isnan format_prediction handle rows
    (World (<[handle := content]> fs) now)
  = (World (<[handle := content +:+
                concat_lines (row_lines format_prediction rows)]> fs) now,
     inr tt).
Proof.
  intros Hrows. revert content.
  induction Hrows as [|[[u m] p] rows Hp _ IH]; intros content; simpl.
  - by rewrite string_app_nil_r.
  - simpl in Hp. rewrite Hp, bind_run, write_run, IH.
    by rewrite string_app_assoc.
Qed.

Lemma write_predictions_raise (handle content : string)
    (fs : gmap string string) (now : string)
    (good rest : list ((Z * Z) * prediction)) (bad : (Z * Z) * prediction) :
  Forall (λ r, isnan r.2 = false) good → isnan bad.2 = true →
  write_predictions isnan format_prediction handle (good ++ bad :: rest)
    (World (<[handle := content]> fs) now)
  = (World (<[handle := content +:+
                concat_lines (row_lines format_prediction good)]> fs) now,
     inl ValueError).
Proof.
  intros Hgood Hbad. revert content.
  induction Hgood as [|[[u m] p] good Hp _ IH]; intros content; simpl.
  - destruct bad as [[u m] p]. simpl in Hbad.
    by rewrite Hbad, string_app_nil_r.
  - simpl in Hp. rewrite Hp, bind_run, write_run, IH.
    by rewrite string_app_assoc.
Qed.

Lemma make_submission_ok (y_predict : list prediction)
    (user_movie_ids : list (Z * Z)) (file_name : string) (date : bool)
    (w : world) :
  Forall (λ r, isnan r.2 = false) (zip user_movie_ids y_predict) →
  let path := submission_path file_name date w in
  make_submission isnan format_prediction y_predict user_movie_ids
    file_name date w
  = (World (<[path := concat_lines
                (header :: row_lines format_prediction
                             (zip user_movie_ids y_predict))]> (files w))
       (clock w),
     inr path).
Proof.
  intros Hrows path. unfold make_submission.
  rewrite bind_run.
  assert ((if date then now ← strftime; mret (file_name +:+ "_" +:+ now)
           else mret file_name) w
          = (w, inr (if date then file_name +:+ "_" +:+ clock w else file_name)))
    as -> by by destruct date.
  fold (submission_path file_name date w). fold path.
  rewrite bind_run. unfold open_w. rewrite bind_run, write_run.
  rewrite bind_run, (write_predictions_ok _ _ _ _ _ Hrows).
  reflexivity.
Qed.

Lemma make_submission_raise (y_predict : list prediction)
    (user_movie_ids : list (Z * Z)) (file_name : string) (date : bool)
    (w : world) (good rest : list ((Z * Z) * prediction))
    (bad : (Z * Z) * prediction) :
  zip user_movie_ids y_predict = good ++ bad :: rest →
  Forall (λ r, isnan r.2 = false) good → isnan bad.2 = true →
  let path := submission_path file_name date w in
  make_submission isnan format_prediction y_predict user_movie_ids
    file_name date w
  = (World (<[path := concat_lines
                (header :: row_lines format_prediction good)]> (files w))
       (clock w),
     inl ValueError).
Proof.
  intros Hzip Hgood Hbad path. unfold make_submission.
  rewrite bind_run.
  assert ((if date then now ← strftime; mret (file_name +:+ "_" +:+ now)
           else mret file_name) w
          = (w, inr (if date then file_name +:+ "_" +:+ clock w else file_name)))
    as -> by by destruct date.
  fold (submission_path file_name date w). fold path.
  rewrite bind_run. unfold open_w. rewrite bind_run, write_run.
  rewrite bind_run, Hzip, (write_predictions_raise _ _ _ _ _ _ _ Hgood Hbad).
  reflexivity.
Qed.

End submission_properties.

(** ** Selecting by position *)

Lemma select_fmap {A B} (f : A → B) (p : list nat) (l : list A) :
  select p (f <$> l) = f <$> select p l.
Proof.
  unfold select. induction p as [|i p IH]; csimpl; [done|].
  rewrite list_lookup_fmap, IH. by destruct (l !! i).
Qed.

Lemma select_seq_app {A} (l0 l : list A) :
  omap (λ i, (l0 ++ l) !! i) (seq (length l0) (length l)) = l.
Proof.
  revert l0. induction l as [|a l IH]; intros l0; csimpl; [done|].
  rewrite list_lookup_middle by done. csimpl. f_equal.
  specialize (IH (l0 ++ [a])). rewrite <- (assoc_L (++)) in IH. simpl in IH.
  rewrite length_app in IH. simpl in IH.
  by replace (length l0 + 1)%nat with (S (length l0)) in IH by lia.
Qed.

Lemma select_permutation {A} (p : list nat) (l : list A) :
  p ≡ₚ seq 0 (length l) → select p l ≡ₚ l.
Proof.
  intros Hp. unfold select. rewrite Hp.
  by rewrite <- (select_seq_app [] l) at 2.
Qed.

(** ** The claims about [create_learning_matrices] *)

Lemma norm_index_nonneg (len : nat) (x : Z) : 0 ≤ x → norm_index len x = Z.to_nat x.
Proof. intros Hx. unfold norm_index. by rewrite bool_decide_eq_false_2 by lia. Qed.

Lemma getrow_length (A : list (list Z)) (M N i : nat) :
  dims A M N → (i < M)%nat → length (getrow A i) = N.
Proof.
  intros [Hlen Hrows] Hi. unfold getrow.
  destruct (lookup_lt_is_Some_2 A i) as [row Hrow]; [lia|]. rewrite Hrow. simpl.
  rewrite Forall_forall in Hrows. apply Hrows. by eapply list_elem_of_lookup_2.
Qed.

(** C1: for a rating matrix of shape (n_users, n_movies) and n query pairs
    within its dimensions, [create_learning_matrices] returns a matrix of n
    rows and n_users + n_movies columns whose row i is row u_i of the rating
    matrix followed by its column m_i; each position is fetched on its own,
    so a repeated pair gives a repeated row. *)
Theorem create_learning_matrices_features (h : store) (r : ref) (R : spmatrix)
    (n_users n_movies : nat) (pairs : list (Z * Z)) :
  h !! r = Some R → wf_matrix R → shape R = (n_users, n_movies) →
  Forall (λ p, 0 ≤ p.1 < Z.of_nat n_users ∧ 0 ≤ p.2 < Z.of_nat n_movies) pairs →
  ∃ h' x X,
    create_learning_matrices r pairs h = (h', inr x) ∧ h' !! x = Some X ∧
    shape X = (length pairs, (n_users + n_movies)%nat) ∧
    dims (toarray X) (length pairs) (n_users + n_movies) ∧
    ∀ i u m, pairs !! i = Some (u, m) →
      toarray X !! i =
        Some (getrow (toarray R) (Z.to_nat u) ++ getcol (toarray R) (Z.to_nat m)).
Proof.
  intros Hr Hwf Hshape Hpairs.
  destruct (create_learning_matrices_ok h r R pairs Hr) as (h' & x & Hrun & _ & Hx).
  { eapply Forall_impl; [exact Hpairs|]. intros [u m] [Hu Hm].
    unfold pair_in_range, in_range. rewrite Hshape. simpl in *. lia. }
  exists h', x, (learning_matrix R pairs).
  unfold wf_matrix in Hwf. rewrite Hshape in Hwf. simpl in Hwf.
  assert (∀ i u m, pairs !! i = Some (u, m) →
    toarray (learning_matrix R pairs) !! i =
      Some (getrow (toarray R) (Z.to_nat u) ++ getcol (toarray R) (Z.to_nat m)))
    as Hrows.
  { intros i u m Hi. unfold learning_matrix, feature_row. simpl.
    rewrite list_lookup_fmap, Hi. simpl.
    rewrite Forall_forall in Hpairs.
    destruct (Hpairs (u, m)) as [Hu Hm]; [by eapply list_elem_of_lookup_2|].
    simpl in *. by rewrite !norm_index_nonneg by lia. }
  split_and!; [done|done|..|done].
  - unfold learning_matrix. rewrite Hshape. simpl. f_equal. lia.
  - split; [unfold learning_matrix; simpl; by rewrite length_fmap|].
    apply Forall_forall. intros row (i & Hi)%list_elem_of_lookup_1.
    destruct (lookup_lt_is_Some_2 pairs i) as [[u m] Hp].
    { apply lookup_lt_Some in Hi. unfold learning_matrix in Hi. simpl in Hi.
      by rewrite length_fmap in Hi. }
    rewrite (Hrows _ _ _ Hp) in Hi. injection Hi as <-.
    rewrite Forall_forall in Hpairs.
    destruct (Hpairs (u, m)) as [Hu Hm]; [by eapply list_elem_of_lookup_2|].
    simpl in *. rewrite length_app.
    rewrite (getrow_length _ n_users n_movies) by (done || lia).
    unfold getcol. rewrite length_fmap. destruct Hwf as [-> _]. lia.
Qed.

Lemma create_learning_matrices_features_witness :
  ∃ h' x X,
    create_learning_matrices 0 ex_pairs [ex_R] = (h', inr x) ∧ h' !! x = Some X ∧
    shape X = (length ex_pairs, (2 + 2)%nat) ∧
    dims (toarray X) (length ex_pairs) (2 + 2) ∧
    ∀ i u m, ex_pairs !! i = Some (u, m) →
      toarray X !! i =
        Some (getrow (toarray ex_R) (Z.to_nat u) ++ getcol (toarray ex_R) (Z.to_nat m)).
Proof.
  apply (create_learning_matrices_features [ex_R] 0%nat ex_R 2 2 ex_pairs).
  - reflexivity.
  - split; [reflexivity|]. repeat constructor.
  - reflexivity.
  - repeat constructor; simpl; lia.
Defined.

(** C4, as stated, fails: the index -1 is outside a matrix of two rows, yet
    the call returns, and the pair (-1, 0) is resolved to row 1. *)
Lemma create_learning_matrices_wraps_negative :
  ¬ (0 ≤ -1 < 2) ∧
  outcome (create_learning_matrices 0 [(-1, 0)] [ex_R])
  = inr (Some (SpMatrix csr (1%nat, 4%nat) [getrow (toarray ex_R) 1 ++ getcol (toarray ex_R) 0])).
Proof. split; [lia|reflexivity]. Qed.

(** C4, amended: a call with some index [>= n] or [< -n] for its axis of
    [n] entries raises [IndexError]; no index is clipped; an index in
    [-n .. -1] is not refused but counts from the end of its axis
    ([norm_index]), and every other index names its own row or column. *)
Theorem create_learning_matrices_index_error (h : store) (r : ref)
    (R : spmatrix) (n_users n_movies : nat) :
  h !! r = Some R → shape R = (n_users, n_movies) →
  (∀ pairs,
     Exists (λ p, p.1 < - Z.of_nat n_users ∨ Z.of_nat n_users ≤ p.1 ∨
                  p.2 < - Z.of_nat n_movies ∨ Z.of_nat n_movies ≤ p.2) pairs →
     ∃ h', create_learning_matrices r pairs h = (h', inl IndexError)) ∧
  (∀ pairs,
     Forall (λ p, - Z.of_nat n_users ≤ p.1 < Z.of_nat n_users ∧
                  - Z.of_nat n_movies ≤ p.2 < Z.of_nat n_movies) pairs →
     ∃ h' x X,
       create_learning_matrices r pairs h = (h', inr x) ∧ h' !! x = Some X ∧
       ∀ i u m, pairs !! i = Some (u, m) →
         toarray X !! i =
           Some (getrow (toarray R) (norm_index n_users u) ++
                 getcol (toarray R) (norm_index n_movies m))).
Proof.
  intros Hr Hshape. split; intros pairs Hpairs.
  - destruct (create_learning_matrices_err h r R pairs Hr) as (h' & Hrun & _);
      [|by exists h'].
    eapply Exists_impl; [exact Hpairs|]. intros [u m].
    unfold pair_in_range, in_range. rewrite Hshape. simpl. lia.
  - destruct (create_learning_matrices_ok h r R pairs Hr) as (h' & x & Hrun & _ & Hx).
    { eapply Forall_impl; [exact Hpairs|]. intros [u m].
      unfold pair_in_range, in_range. rewrite Hshape. simpl. lia. }
    exists h', x, (learning_matrix R pairs). split_and!; [done..|].
    intros i u m Hi. unfold learning_matrix, feature_row. simpl.
    by rewrite list_lookup_fmap, Hi, Hshape.
Qed.

Lemma create_learning_matrices_index_error_witness :
  (∃ h', create_learning_matrices 0 [(0, 1); (2, 0)] [ex_R] = (h', inl IndexError)) ∧
  (∃ h' x X,
     create_learning_matrices 0 [(-1, 0)] [ex_R] = (h', inr x) ∧ h' !! x = Some X ∧
     ∀ i u m, [(-1, 0)] !! i = Some (u, m) →
       toarray X !! i =
         Some (getrow (toarray ex_R) (norm_index 2 u) ++
               getcol (toarray ex_R) (norm_index 2 m))).
Proof.
  assert ([ex_R] !! 0%nat = Some ex_R) as Hr by reflexivity.
  assert (shape ex_R = (2%nat, 2%nat)) as Hshape by reflexivity.
  split.
  - apply (proj1 (create_learning_matrices_index_error [ex_R] 0%nat ex_R 2 2 Hr Hshape)).
    right; left. simpl. lia.
  - apply (proj2 (create_learning_matrices_index_error [ex_R] 0%nat ex_R 2 2 Hr Hshape)).
    repeat constructor; simpl; lia.
Defined.

(** C5: the rating matrix of the triplets (0,0,5) and (1,1,3) is 2 by 2, and
    the query pairs (0,1), (1,0) give the feature rows [5,0,0,3] and
    [0,3,5,0], in that order. *)
Theorem create_learning_matrices_example (h0 : store) :
  ∃ h x R h' y X,
    build_rating_matrix ex_triplets h0 = (h, inr x) ∧ h !! x = Some R ∧
    shape R = (2%nat, 2%nat) ∧
    create_learning_matrices x ex_pairs h = (h', inr y) ∧ h' !! y = Some X ∧
    toarray X = [[5; 0; 0; 3]; [0; 3; 5; 0]].
Proof.
  pose proof (build_rating_matrix_run h0 ex_triplets 1 1) as Hbuild.
  simpl in Hbuild. specialize (Hbuild ltac:(repeat constructor; simpl; lia) eq_refl eq_refl).
  set (R := SpMatrix csr (2%nat, 2%nat) (coo_todense 2 2 ex_triplets)).
  assert ((h0 ++ [SpMatrix coo (2%nat, 2%nat) (coo_todense 2 2 ex_triplets); R])
            !! S (length h0) = Some R) as HR.
  { rewrite lookup_app_r by lia.
    by replace (S (length h0) - length h0)%nat with 1%nat by lia. }
  destruct (create_learning_matrices_ok _ _ R ex_pairs HR) as (h' & y & Hrun & _ & Hy).
  { repeat constructor; simpl; lia. }
  eexists _, _, R, h', y, _. split_and!; [exact Hbuild|exact HR|done|exact Hrun|exact Hy|].
  reflexivity.
Qed.

(** C6: when the query pairs are permuted, the rows of the result are
    permuted in the same way, and a failing call keeps failing: nothing is
    sorted or merged. [p] lists, for every position of the new sequence,
    the position it takes its pair from. *)
Theorem create_learning_matrices_permutation (h : store) (r : ref)
    (R : spmatrix) (pairs : list (Z * Z)) (p : list nat) :
  h !! r = Some R → p ≡ₚ seq 0 (length pairs) →
  outcome (create_learning_matrices r (select p pairs) h) =
    match outcome (create_learning_matrices r pairs h) with
    | inl e => inl e
    | inr X => inr (permute_rows p <$> X)
    end.
Proof.
  intros Hr Hp. pose proof (select_permutation p pairs Hp) as Hsel.
  destruct (pairs_in_range_or_not R pairs) as [Hok|Hbad].
  - destruct (create_learning_matrices_ok h r R pairs Hr Hok)
      as (h1 & x1 & Hrun1 & _ & Hx1).
    destruct (create_learning_matrices_ok h r R (select p pairs) Hr)
      as (h2 & x2 & Hrun2 & _ & Hx2); [by rewrite Hsel|].
    unfold outcome. rewrite Hrun1, Hrun2. simpl. rewrite Hx1, Hx2. simpl.
    do 2 f_equal. unfold learning_matrix, permute_rows. simpl.
    rewrite select_fmap. by rewrite (Permutation_length Hsel).
  - destruct (create_learning_matrices_err h r R pairs Hr Hbad) as (h1 & Hrun1 & _).
    destruct (create_learning_matrices_err h r R (select p pairs) Hr)
      as (h2 & Hrun2 & _); [by rewrite Hsel|].
    unfold outcome. by rewrite Hrun1, Hrun2.
Qed.

Lemma create_learning_matrices_permutation_witness :
  outcome (create_learning_matrices 0 (select [1; 0]%nat ex_pairs) [ex_R]) =
    match outcome (create_learning_matrices 0 ex_pairs [ex_R]) with
    | inl e => inl e
    | inr X => inr (permute_rows [1; 0]%nat <$> X)
    end.
Proof.
  apply (create_learning_matrices_permutation [ex_R] 0%nat ex_R ex_pairs [1; 0]%nat).
  - reflexivity.
  - apply perm_swap.
Defined.

(** C9: a call leaves the rating matrix, and every other object that was in
    the store, as it was; and a second call on the same arguments gives the
    same result as the first. *)
Theorem create_learning_matrices_pure (h : store) (r : ref) (R : spmatrix)
    (pairs : list (Z * Z)) :
  h !! r = Some R →
  let res := create_learning_matrices r pairs h in
  res.1 !! r = Some R ∧
  (∀ l o, h !! l = Some o → res.1 !! l = Some o) ∧
  outcome (create_learning_matrices r pairs res.1) = outcome res.
Proof.
  intros Hr res. unfold res.
  destruct (pairs_in_range_or_not R pairs) as [Hok|Hbad].
  - destruct (create_learning_matrices_ok h r R pairs Hr Hok)
      as (h1 & x1 & Hrun1 & Hp1 & Hx1).
    rewrite Hrun1. simpl.
    assert (h1 !! r = Some R) as Hr1 by by eapply prefix_lookup_Some.
    split_and!; [done|by intros; eapply prefix_lookup_Some|].
    destruct (create_learning_matrices_ok h1 r R pairs Hr1 Hok)
      as (h2 & x2 & Hrun2 & _ & Hx2).
    unfold outcome. rewrite Hrun2. simpl. by rewrite Hx1, Hx2.
  - destruct (create_learning_matrices_err h r R pairs Hr Hbad)
      as (h1 & Hrun1 & Hp1).
    rewrite Hrun1. simpl.
    assert (h1 !! r = Some R) as Hr1 by by eapply prefix_lookup_Some.
    split_and!; [done|by intros; eapply prefix_lookup_Some|].
    destruct (create_learning_matrices_err h1 r R pairs Hr1 Hbad)
      as (h2 & Hrun2 & _).
    unfold outcome. by rewrite Hrun2.
Qed.

Lemma create_learning_matrices_pure_witness :
  let res := create_learning_matrices 0 ex_pairs [ex_R] in
  res.1 !! 0%nat = Some ex_R ∧
  (∀ l o, [ex_R] !! l = Some o → res.1 !! l = Some o) ∧
  outcome (create_learning_matrices 0 ex_pairs res.1) = outcome res.
Proof.
  apply (create_learning_matrices_pure [ex_R] 0%nat ex_R ex_pairs). reflexivity.
Defined.

(** ** The claims about [build_rating_matrix] *)

Lemma is_max_np_max (m : Z) (l : list Z) : is_max m l → np_max l = Some m.
Proof.
  intros [Hin Hle].
  destruct (np_max l) as [m'|] eqn:Hmax; [|destruct l; [by inversion Hin|done]].
  apply np_max_spec in Hmax as [Hin' Hle'].
  rewrite Forall_forall in Hle, Hle'.
  apply Hle in Hin'. apply Hle' in Hin. f_equal. lia.
Qed.

Lemma np_max_is_max (l : list Z) : l ≠ [] → ∃ m, is_max m l.
Proof.
  intros Hne. destruct (np_max l) as [m|] eqn:Hmax; [|by destruct l].
  exists m. by apply np_max_spec.
Qed.

Lemma ratings_of_absent (u m : Z) (triplets : list (Z * Z * Z)) :
  (u, m) ∉ triplets.*1 → ratings_of u m triplets = [].
Proof.
  unfold ratings_of. induction triplets as [|[[u' m'] v] ts IH]; csimpl; [done|].
  intros Hnotin. apply not_elem_of_cons in Hnotin as [Hne Hnotin].
  rewrite filter_cons. simpl. rewrite decide_False by done. by apply IH.
Qed.

Lemma ratings_of_unique (u m r : Z) (triplets : list (Z * Z * Z)) :
  NoDup triplets.*1 → (u, m, r) ∈ triplets → ratings_of u m triplets = [r].
Proof.
  unfold ratings_of. induction triplets as [|[[u' m'] v] ts IH]; csimpl.
  - intros _ Hin. by inversion Hin.
  - intros [Hnotin Hnodup]%NoDup_cons Hin. rewrite filter_cons. simpl.
    apply elem_of_cons in Hin as [[= <- <- <-]|Hin].
    + rewrite decide_True by done. csimpl. f_equal.
      by apply (ratings_of_absent u m ts).
    + rewrite decide_False; [by apply IH|].
      intros [= -> ->]. apply Hnotin.
      apply list_elem_of_fmap. by exists (u, m, r).
Qed.

(** A non-empty sequence of valid triplets is accepted, and the result is
    the CSR matrix of the summed coordinate list, of the inferred shape. *)
Lemma build_rating_matrix_ok (h : store) (triplets : list (Z * Z * Z)) :
  triplets ≠ [] → Forall valid_triplet triplets →
  ∃ max_u max_m h' x,
    is_max max_u ((λ t, t.1.1) <$> triplets) ∧
    is_max max_m ((λ t, t.1.2) <$> triplets) ∧
    build_rating_matrix triplets h = (h', inr x) ∧
    h' !! x = Some (SpMatrix csr (Z.to_nat (max_u + 1), Z.to_nat (max_m + 1))
                      (coo_todense (Z.to_nat (max_u + 1)) (Z.to_nat (max_m + 1))
                         triplets)).
Proof.
  intros Hne Hvalid.
  destruct (np_max_is_max ((λ t, t.1.1) <$> triplets)) as [max_u Hu];
    [by destruct triplets|].
  destruct (np_max_is_max ((λ t, t.1.2) <$> triplets)) as [max_m Hm];
    [by destruct triplets|].
  exists max_u, max_m. eexists _, _. split_and!; [done|done|..].
  - by apply build_rating_matrix_run; [|apply is_max_np_max..].
  - rewrite lookup_app_r by lia.
    by replace (S (length h) - length h)%nat with 1%nat by lia.
Qed.

Lemma is_max_bound (m x : Z) (l : list Z) :
  is_max m l → x ∈ l → 0 ≤ x → (Z.to_nat x < Z.to_nat (m + 1))%nat.
Proof.
  intros [_ Hle] Hin Hx. rewrite Forall_forall in Hle. apply Hle in Hin. lia.
Qed.

(** C2: for a non-empty sequence of triplets in which every (user, movie)
    pair occurs at most once, the matrix holds the rating of every triplet
    at its coordinates, and 0 at every coordinate within its shape that no
    triplet names. *)
Theorem build_rating_matrix_entries (h : store) (triplets : list (Z * Z * Z)) :
  triplets ≠ [] → Forall valid_triplet triplets → NoDup triplets.*1 →
  ∃ h' x X,
    build_rating_matrix triplets h = (h', inr x) ∧ h' !! x = Some X ∧
    (∀ u m r, (u, m, r) ∈ triplets →
       entry (toarray X) (Z.to_nat u) (Z.to_nat m) = r) ∧
    (∀ u m : nat, (u < (shape X).1)%nat → (m < (shape X).2)%nat →
       (Z.of_nat u, Z.of_nat m) ∉ triplets.*1 → entry (toarray X) u m = 0).
Proof.
  intros Hne Hvalid Hnodup.
  destruct (build_rating_matrix_ok h triplets Hne Hvalid)
    as (max_u & max_m & h' & x & Hu & Hm & Hrun & Hx).
  eexists h', x, _. split_and!; [exact Hrun|exact Hx|..]; simpl.
  - intros u m r Hin.
    rewrite Forall_forall in Hvalid. destruct (Hvalid _ Hin) as [H0u H0m].
    simpl in *.
    rewrite entry_coo_todense; [| by apply Forall_forall | |].
    + rewrite !Z2Nat.id by done.
      rewrite (ratings_of_unique u m r) by done. simpl. lia.
    + eapply is_max_bound; [exact Hu| |done].
      apply list_elem_of_fmap. by exists (u, m, r).
    + eapply is_max_bound; [exact Hm| |done].
      apply list_elem_of_fmap. by exists (u, m, r).
  - intros u m Hlu Hlm Hnotin.
    rewrite entry_coo_todense by done.
    by rewrite ratings_of_absent.
Qed.

Lemma build_rating_matrix_entries_witness :
  ∃ h' x X,
    build_rating_matrix ex_triplets [] = (h', inr x) ∧ h' !! x = Some X ∧
    (∀ u m r, (u, m, r) ∈ ex_triplets →
       entry (toarray X) (Z.to_nat u) (Z.to_nat m) = r) ∧
    (∀ u m : nat, (u < (shape X).1)%nat → (m < (shape X).2)%nat →
       (Z.of_nat u, Z.of_nat m) ∉ ex_triplets.*1 → entry (toarray X) u m = 0).
Proof.
  apply (build_rating_matrix_entries [] ex_triplets).
  - discriminate.
  - repeat constructor; simpl; lia.
  - apply (bool_decide_unpack _). reflexivity.
Defined.




(** C7: with no shape supplied, the matrix built from a non-empty sequence
    of triplets has (largest user id + 1) rows and (largest movie id + 1)
    columns, in its shape and in its array. *)
Theorem build_rating_matrix_shape (h : store) (triplets : list (Z * Z * Z))
    (max_user max_movie : Z) :
  triplets ≠ [] → Forall valid_triplet triplets →
  is_max max_user ((λ t, t.1.1) <$> triplets) →
  is_max max_movie ((λ t, t.1.2) <$> triplets) →
  ∃ h' x X,
    build_rating_matrix triplets h = (h', inr x) ∧ h' !! x = Some X ∧
    Z.of_nat (shape X).1 = max_user + 1 ∧
    Z.of_nat (shape X).2 = max_movie + 1 ∧
    wf_matrix X.
Proof.
  intros Hne Hvalid Hu Hm.
  pose proof (build_rating_matrix_run h triplets max_user max_movie Hvalid
                (is_max_np_max _ _ Hu) (is_max_np_max _ _ Hm)) as Hrun.
  simpl in Hrun. eexists _, _, _. split_and!; [exact Hrun| |..].
  - rewrite lookup_app_r by lia.
    by replace (S (length h) - length h)%nat with 1%nat by lia.
  - simpl. destruct Hu as [Hin _].
    apply list_elem_of_fmap in Hin as (t & -> & Ht).
    rewrite Forall_forall in Hvalid. destruct (Hvalid _ Ht). lia.
  - simpl. destruct Hm as [Hin _].
    apply list_elem_of_fmap in Hin as (t & -> & Ht).
    rewrite Forall_forall in Hvalid. destruct (Hvalid _ Ht). lia.
  - apply dims_coo_todense.
Qed.

Lemma build_rating_matrix_shape_witness :
  ∃ h' x X,
    build_rating_matrix ex_triplets [] = (h', inr x) ∧ h' !! x = Some X ∧
    Z.of_nat (shape X).1 = 1 + 1 ∧
    Z.of_nat (shape X).2 = 1 + 1 ∧
    wf_matrix X.
Proof.
  apply (build_rating_matrix_shape [] ex_triplets 1 1).
  - discriminate.
  - repeat constructor; simpl; lia.
  - split; [change (1 ∈ [0; 1]); right; left|repeat constructor; simpl; lia].
  - split; [change (1 ∈ [0; 1]); right; left|repeat constructor; simpl; lia].
Defined.

(** ** The claims about [make_submission] *)

Section submission_claims.
Context {prediction : Type}.
Variable isnan : prediction → bool.
Variable format_prediction : prediction → string.





End submission_claims.



(** * Further properties *)

(** ** [build_rating_matrix]: refusals and frame *)

Lemma np_min_le (l : list Z) (x : Z) :
  x ∈ l → ∃ m, np_min l = Some m ∧ m ≤ x.
Proof.
  intros Hin. destruct (np_min l) as [m|] eqn:Hmin;
    [|destruct l; [by inversion Hin|done]].
  exists m. split; [done|]. apply np_min_spec in Hmin as [_ Hle].
  rewrite Forall_forall in Hle. by apply Hle.
Qed.

Lemma build_rating_matrix_err (h : store) (triplets : list (Z * Z * Z)) :
  triplets = [] ∨ Exists (λ t, ¬ valid_triplet t) triplets →
  build_rating_matrix triplets h = (h, inl ValueError).
Proof.
  intros [->|Hbad]; [done|].
  apply Exists_exists in Hbad as (t & Ht & Hbad).
  unfold build_rating_matrix, coo_matrix. rewrite bind_run.
  destruct (np_max ((λ t, t.1.1) <$> triplets)) as [max_u|]; [|done].
  destruct (np_max ((λ t, t.1.2) <$> triplets)) as [max_m|]; [|done].
  destruct (np_min_le ((λ t, t.1.1) <$> triplets) t.1.1) as (min_u & -> & Hu).
  { apply list_elem_of_fmap. by exists t. }
  destruct (np_min_le ((λ t, t.1.2) <$> triplets) t.1.2) as (min_m & -> & Hm).
  { apply list_elem_of_fmap. by exists t. }
  rewrite bool_decide_eq_true_2 by by rewrite !length_fmap.
  rewrite bool_decide_eq_true_2; [done|].
  unfold valid_triplet in Hbad. lia.
Qed.

Lemma valid_triplets_or_not (triplets : list (Z * Z * Z)) :
  Forall valid_triplet triplets ∨ Exists (λ t, ¬ valid_triplet t) triplets.
Proof.
  destruct (decide (Forall valid_triplet triplets)) as [H|H]; [by left|right].
  by apply not_Forall_Exists; [apply _|].
Qed.

(** X1: an empty triplet array, or one with a negative user or movie id, is
    refused with [ValueError], and nothing is added to the store. *)
Theorem build_rating_matrix_refuses (h : store) (triplets : list (Z * Z * Z)) :
  triplets = [] ∨ Exists (λ t, t.1.1 < 0 ∨ t.1.2 < 0) triplets →
  build_rating_matrix triplets h = (h, inl ValueError).
Proof.
  intros [->|Hbad]; [done|]. apply build_rating_matrix_err. right.
  eapply Exists_impl; [exact Hbad|]. intros t. unfold valid_triplet. lia.
Qed.

Lemma build_rating_matrix_refuses_witness :
  build_rating_matrix [(0, 0, 5); (1, -1, 3)] [ex_R] = ([ex_R], inl ValueError).
Proof.
  apply (build_rating_matrix_refuses [ex_R] [(0, 0, 5); (1, -1, 3)]).
  right. right. left. simpl. lia.
Defined.

(** X2: whatever the triplets, a call changes no object of the store; when
    it returns, the reference is to an object that was not in the store
    before, in CSR format, whose array has the dimensions of its shape. *)
Theorem build_rating_matrix_frame (h : store) (triplets : list (Z * Z * Z)) :
  let res := build_rating_matrix triplets h in
  h `prefix_of` res.1 ∧
  ∀ x, res.2 = inr x →
       h !! x = None ∧
       ∃ X, res.1 !! x = Some X ∧ format X = csr ∧ wf_matrix X.
Proof.
  intros res. unfold res.
  destruct (decide (triplets = [])) as [->|Hne].
  { split; [done|]. intros x [=]. }
  destruct (valid_triplets_or_not triplets) as [Hvalid|Hbad].
  - destruct (np_max_is_max ((λ t, t.1.1) <$> triplets)) as [max_u Hu];
      [by destruct triplets|].
    destruct (np_max_is_max ((λ t, t.1.2) <$> triplets)) as [max_m Hm];
      [by destruct triplets|].
    rewrite (build_rating_matrix_run h triplets max_u max_m Hvalid
               (is_max_np_max _ _ Hu) (is_max_np_max _ _ Hm)).
    simpl. split; [by apply prefix_app_r|].
    intros x [= <-]. split; [apply lookup_ge_None; lia|].
    eexists. split_and!.
    + rewrite lookup_app_r by lia.
      by replace (S (length h) - length h)%nat with 1%nat by lia.
    + done.
    + apply dims_coo_todense.
  - rewrite build_rating_matrix_err by by right.
    split; [done|]. intros x [=].
Qed.

(** ** [create_learning_matrices]: the result object *)

Lemma tocsr_run_new (h : store) (r : ref) (o : spmatrix) :
  h !! r = Some o → format o ≠ csr →
  tocsr r h = (h ++ [SpMatrix csr (shape o) (toarray o)], inr (length h)).
Proof.
  intros Hr Hf. unfold tocsr. rewrite bind_run, (load_run _ _ _ Hr).
  by rewrite decide_False.
Qed.

Lemma create_learning_matrices_ok_new (h : store) (r : ref) (R : spmatrix)
    (pairs : list (Z * Z)) :
  h !! r = Some R → Forall (pair_in_range R) pairs →
  ∃ h' x, create_learning_matrices r pairs h = (h', inr x) ∧
          h `prefix_of` h' ∧ (length h ≤ x)%nat ∧
          h' !! x = Some (learning_matrix R pairs).
Proof.
  intros Hr [Hus Hms]%pairs_in_range_split. unfold create_learning_matrices.
  rewrite bind_run.
  destruct (tocsr_run _ _ _ Hr) as (h1 & r1 & -> & Hp1 & Hr1).
  rewrite bind_run, (getitem_rows_run _ _ _ _ Hr1) by done. simpl.
  rewrite (asindices_ok _ _ Hus).
  set (UF := SpMatrix _ _ _). rewrite bind_run.
  assert ((h1 ++ [UF]) !! r1 = Some (SpMatrix csr (shape R) (toarray R))) as Hr1'
    by by apply lookup_app_l_Some.
  destruct (tocsc_run _ _ _ Hr1') as (h3 & r3 & -> & Hp3 & Hr3).
  rewrite bind_run, (getitem_cols_run _ _ _ _ Hr3) by done. simpl.
  rewrite (asindices_ok _ _ Hms).
  set (MC := SpMatrix _ _ _). rewrite bind_run.
  rewrite (transpose_run _ _ _ (lookup_alloc h3 MC)).
  set (MF := SpMatrix _ _ _). rewrite bind_run.
  assert ((h3 ++ [MC] ++ [MF]) !! length h1 = Some UF) as HUF.
  { apply lookup_app_l_Some.
    eapply prefix_lookup_Some; [apply lookup_alloc|done]. }
  rewrite <- (assoc_L (++)).
  rewrite (hstack_run _ _ _ UF MF HUF); cycle 1.
  { rewrite (assoc_L (++)). apply lookup_alloc. }
  { simpl. by rewrite !length_fmap. }
  set (X := SpMatrix _ _ _).
  rewrite (tocsr_run_new _ _ X (lookup_alloc _ X)) by done.
  pose proof (prefix_length _ _ Hp1) as Hl1.
  pose proof (prefix_length _ _ Hp3) as Hl3.
  rewrite length_app in Hl3. simpl in Hl3.
  eexists _, _. split_and!; [done| | |].
  - etrans; [exact Hp1|]. etrans; [by apply prefix_app_r|].
    etrans; [exact Hp3|].
    rewrite !(assoc_L (++)). by do 4 apply prefix_app_r.
  - rewrite !length_app. simpl. lia.
  - rewrite lookup_alloc. unfold learning_matrix, X, UF, MF, MC. simpl.
    by rewrite transpose_gathered, hstack_rows, !length_fmap.
Qed.

Lemma norm_index_lt (len : nat) (x : Z) :
  in_range len x → (norm_index len x < len)%nat.
Proof.
  unfold in_range, norm_index. intros Hx. case_bool_decide; lia.
Qed.

Lemma learning_matrix_wf (R : spmatrix) (pairs : list (Z * Z)) :
  wf_matrix R → Forall (pair_in_range R) pairs →
  wf_matrix (learning_matrix R pairs).
Proof.
  intros Hwf Hpairs. unfold wf_matrix, learning_matrix. simpl.
  split; [by rewrite length_fmap|].
  apply Forall_fmap. eapply Forall_impl; [exact Hpairs|].
  intros [u m] [Hu Hm]. simpl in *. unfold feature_row.
  rewrite length_app.
  rewrite (getrow_length _ _ _ _ Hwf) by by apply norm_index_lt.
  unfold getcol. rewrite length_fmap. by destruct Hwf as [-> _].
Qed.

(** X3: a call on a well-formed rating matrix with accepted indices
    (negative ones included) returns a reference to an object that was not
    in the store before (it is not the rating matrix), in CSR format, of
    shape (number of pairs, n_movies + n_users), whose array has these
    dimensions. *)
Theorem create_learning_matrices_result (h : store) (r : ref) (R : spmatrix)
    (n_users n_movies : nat) (pairs : list (Z * Z)) :
  h !! r = Some R → wf_matrix R → shape R = (n_users, n_movies) →
  Forall (λ p, - Z.of_nat n_users ≤ p.1 < Z.of_nat n_users ∧
               - Z.of_nat n_movies ≤ p.2 < Z.of_nat n_movies) pairs →
  ∃ h' x X,
    create_learning_matrices r pairs h = (h', inr x) ∧
    h !! x = None ∧ h' !! x = Some X ∧ format X = csr ∧
    shape X = (length pairs, (n_movies + n_users)%nat) ∧
    wf_matrix X.
Proof.
  intros Hr Hwf Hshape Hpairs.
  assert (Forall (pair_in_range R) pairs) as Hok.
  { eapply Forall_impl; [exact Hpairs|]. intros [u m].
    unfold pair_in_range, in_range. rewrite Hshape. simpl. lia. }
  destruct (create_learning_matrices_ok_new h r R pairs Hr Hok)
    as (h' & x & Hrun & _ & Hfresh & Hx).
  exists h', x, (learning_matrix R pairs).
  split_and!; [done|by apply lookup_ge_None|done|done| |].
  - unfold learning_matrix. by rewrite Hshape.
  - by apply learning_matrix_wf.
Qed.

Lemma create_learning_matrices_result_witness :
  ∃ h' x X,
    create_learning_matrices 0 [(-1, 0); (1, -2)] [ex_R] = (h', inr x) ∧
    [ex_R] !! x = None ∧ h' !! x = Some X ∧ format X = csr ∧
    shape X = (2%nat, (2 + 2)%nat) ∧
    wf_matrix X.
Proof.
  apply (create_learning_matrices_result [ex_R] 0%nat ex_R 2 2 [(-1, 0); (1, -2)]).
  - reflexivity.
  - split; [reflexivity|]. repeat constructor.
  - reflexivity.
  - repeat constructor; simpl; lia.
Defined.

(** X4: the outcome depends on the rating matrix only through its shape and
    its entries: neither its storage format (COO, CSR or CSC) nor the rest
    of the store matters. *)
Theorem create_learning_matrices_any_format (h1 h2 : store) (r1 r2 : ref)
    (R1 R2 : spmatrix) (pairs : list (Z * Z)) :
  h1 !! r1 = Some R1 → h2 !! r2 = Some R2 →
  shape R1 = shape R2 → toarray R1 = toarray R2 →
  outcome (create_learning_matrices r1 pairs h1)
  = outcome (create_learning_matrices r2 pairs h2).
Proof.
  intros Hr1 Hr2 Hshape Harr.
  assert (∀ p, pair_in_range R1 p ↔ pair_in_range R2 p) as Hiff.
  { intros p. unfold pair_in_range. by rewrite Hshape. }
  destruct (pairs_in_range_or_not R1 pairs) as [Hok|Hbad].
  - destruct (create_learning_matrices_ok h1 r1 R1 pairs Hr1 Hok)
      as (h1' & x1 & Hrun1 & _ & Hx1).
    destruct (create_learning_matrices_ok h2 r2 R2 pairs Hr2)
      as (h2' & x2 & Hrun2 & _ & Hx2).
    { eapply Forall_impl; [exact Hok|]. intros p. apply Hiff. }
    unfold outcome. rewrite Hrun1, Hrun2. simpl. rewrite Hx1, Hx2.
    unfold learning_matrix, feature_row. by rewrite Hshape, Harr.
  - destruct (create_learning_matrices_err h1 r1 R1 pairs Hr1 Hbad)
      as (h1' & Hrun1 & _).
    destruct (create_learning_matrices_err h2 r2 R2 pairs Hr2)
      as (h2' & Hrun2 & _).
    { eapply Exists_impl; [exact Hbad|]. intros p Hn Hp. apply Hn. by apply Hiff. }
    unfold outcome. by rewrite Hrun1, Hrun2.
Qed.

Lemma create_learning_matrices_any_format_witness :
  outcome (create_learning_matrices 0 ex_pairs [ex_R])
  = outcome (create_learning_matrices 1 ex_pairs
               [ex_R; SpMatrix coo (2%nat, 2%nat) [[5; 0]; [0; 3]]]).
Proof.
  apply (create_learning_matrices_any_format [ex_R]
           [ex_R; SpMatrix coo (2%nat, 2%nat) [[5; 0]; [0; 3]]] 0%nat 1%nat
           ex_R (SpMatrix coo (2%nat, 2%nat) [[5; 0]; [0; 3]]) ex_pairs);
    reflexivity.
Defined.

Lemma entry_lookup (A : list (list Z)) (i : nat) (row : list Z) (j : nat) :
  A !! i = Some row → entry A i j = getitem row j.
Proof. intros Hi. unfold entry, getrow. by rewrite Hi. Qed.

Lemma getitem_getcol (A : list (list Z)) (m k : nat) :
  (k < length A)%nat → getitem (getcol A m) k = entry A k m.
Proof.
  intros Hk. destruct (lookup_lt_is_Some_2 A k Hk) as [row Hrow].
  unfold getcol. rewrite (getitem_fmap _ _ _ _ Hrow).
  by rewrite (entry_lookup _ _ _ _ Hrow).
Qed.

(** X5: the column layout of the features: in row i, the first n_movies
    entries are the ratings of user u_i for every movie, and the next
    n_users entries are the ratings of movie m_i by every user. *)
Theorem create_learning_matrices_layout (h : store) (r : ref) (R : spmatrix)
    (n_users n_movies : nat) (pairs : list (Z * Z)) :
  h !! r = Some R → wf_matrix R → shape R = (n_users, n_movies) →
  Forall (λ p, 0 ≤ p.1 < Z.of_nat n_users ∧ 0 ≤ p.2 < Z.of_nat n_movies) pairs →
  ∃ h' x X,
    create_learning_matrices r pairs h = (h', inr x) ∧ h' !! x = Some X ∧
    ∀ i u m, pairs !! i = Some (u, m) →
      (∀ j, (j < n_movies)%nat →
         entry (toarray X) i j = entry (toarray R) (Z.to_nat u) j) ∧
      (∀ k, (k < n_users)%nat →
         entry (toarray X) i (n_movies + k) = entry (toarray R) k (Z.to_nat m)).
Proof.
  intros Hr Hwf Hshape Hpairs.
  destruct (create_learning_matrices_ok h r R pairs Hr) as (h' & x & Hrun & _ & Hx).
  { eapply Forall_impl; [exact Hpairs|]. intros [u m] [Hu Hm].
    unfold pair_in_range, in_range. rewrite Hshape. simpl in *. lia. }
  exists h', x, (learning_matrix R pairs). split_and!; [done|done|].
  intros i u m Hi.
  rewrite Forall_forall in Hpairs.
  destruct (Hpairs (u, m)) as [Hu Hm]; [by eapply list_elem_of_lookup_2|].
  simpl in Hu, Hm.
  unfold wf_matrix in Hwf. rewrite Hshape in Hwf. simpl in Hwf.
  assert (toarray (learning_matrix R pairs) !! i =
          Some (getrow (toarray R) (Z.to_nat u) ++ getcol (toarray R) (Z.to_nat m)))
    as Hrow.
  { unfold learning_matrix, feature_row. simpl.
    rewrite list_lookup_fmap, Hi, Hshape. simpl.
    by rewrite !norm_index_nonneg by lia. }
  assert (length (getrow (toarray R) (Z.to_nat u)) = n_movies) as Hlen
    by (apply (getrow_length _ n_users); [done|lia]).
  split.
  - intros j Hj. rewrite (entry_lookup _ _ _ _ Hrow).
    unfold getitem. rewrite lookup_app_l by lia. done.
  - intros k Hk. rewrite (entry_lookup _ _ _ _ Hrow).
    unfold getitem at 1. rewrite lookup_app_r by lia.
    replace (n_movies + k - length (getrow (toarray R) (Z.to_nat u)))%nat
      with k by lia.
    apply getitem_getcol. destruct Hwf as [-> _]. done.
Qed.

Lemma create_learning_matrices_layout_witness :
  ∃ h' x X,
    create_learning_matrices 0 ex_pairs [ex_R] = (h', inr x) ∧ h' !! x = Some X ∧
    ∀ i u m, ex_pairs !! i = Some (u, m) →
      (∀ j, (j < 2)%nat →
         entry (toarray X) i j = entry (toarray ex_R) (Z.to_nat u) j) ∧
      (∀ k, (k < 2)%nat →
         entry (toarray X) i (2 + k) = entry (toarray ex_R) k (Z.to_nat m)).
Proof.
  apply (create_learning_matrices_layout [ex_R] 0%nat ex_R 2 2 ex_pairs).
  - reflexivity.
  - split; [reflexivity|]. repeat constructor.
  - reflexivity.
  - repeat constructor; simpl; lia.
Defined.

(** ** The data wiring of [parameter_tuning] *)

Lemma zip_users (pairs : list (Z * Z)) (labels : list Z) :
  length pairs = length labels →
  (λ t : Z * Z * Z, t.1.1) <$> zip pairs labels = pairs.*1.
Proof.
  intros Hlen. rewrite <- (fst_zip pairs labels) at 2 by lia.
  by rewrite <- list_fmap_compose.
Qed.

Lemma zip_movies (pairs : list (Z * Z)) (labels : list Z) :
  length pairs = length labels →
  (λ t : Z * Z * Z, t.1.2) <$> zip pairs labels = pairs.*2.
Proof.
  intros Hlen. rewrite <- (fst_zip pairs labels) at 2 by lia.
  by rewrite <- list_fmap_compose.
Qed.

Lemma zip_valid (pairs : list (Z * Z)) (labels : list Z) :
  Forall valid_pair pairs → Forall valid_triplet (zip pairs labels).
Proof.
  intros Hvalid. revert labels.
  induction Hvalid as [|p pairs Hp _ IH]; intros [|y labels]; simpl;
    constructor; auto.
Qed.

(** The rating matrix of a split, and the fact that the pairs of the split
    are within its dimensions. *)
Lemma split_rating_matrix (h : store) (pairs : list (Z * Z)) (labels : list Z)
    (max_u max_m : Z) :
  length pairs = length labels → Forall valid_pair pairs →
  is_max max_u pairs.*1 → is_max max_m pairs.*2 →
  let M := Z.to_nat (max_u + 1) in
  let N := Z.to_nat (max_m + 1) in
  let R := SpMatrix csr (M, N) (coo_todense M N (zip pairs labels)) in
  build_rating_matrix (zip pairs labels) h
    = (h ++ [SpMatrix coo (M, N) (coo_todense M N (zip pairs labels)); R],
       inr (S (length h))) ∧
  Forall (pair_in_range R) pairs.
Proof.
  intros Hlen Hvalid Hu Hm M N R. split.
  - apply build_rating_matrix_run; [by apply zip_valid|..].
    + rewrite zip_users by done. by apply is_max_np_max.
    + rewrite zip_movies by done. by apply is_max_np_max.
  - apply Forall_forall. intros [u m] Hin.
    rewrite Forall_forall in Hvalid. destruct (Hvalid _ Hin) as [H0u H0m].
    simpl in *. unfold pair_in_range, in_range. simpl.
    destruct Hu as [_ Hu]. destruct Hm as [_ Hm].
    rewrite Forall_forall in Hu, Hm.
    assert (u ≤ max_u) by (apply Hu, list_elem_of_fmap; by exists (u, m)).
    assert (m ≤ max_m) by (apply Hm, list_elem_of_fmap; by exists (u, m)).
    unfold M, N. lia.
Qed.

Lemma lookup_last_of_two (h : store) (a b : spmatrix) :
  (h ++ [a; b]) !! S (length h) = Some b.
Proof.
  rewrite lookup_app_r by lia.
  by replace (S (length h) - length h)%nat with 1%nat by lia.
Qed.

(** Both splits valid: the run of [parameter_tuning_matrices]. *)
Lemma parameter_tuning_matrices_run (h : store) (X_ls X_ts : list (Z * Z))
    (y_ls y_ts : list Z) (u_ls m_ls u_ts m_ts : Z) :
  length X_ls = length y_ls → length X_ts = length y_ts →
  Forall valid_pair X_ls → Forall valid_pair X_ts →
  is_max u_ls X_ls.*1 → is_max m_ls X_ls.*2 →
  is_max u_ts X_ts.*1 → is_max m_ts X_ts.*2 →
  let R_ls := SpMatrix csr (Z.to_nat (u_ls + 1), Z.to_nat (m_ls + 1))
                (coo_todense (Z.to_nat (u_ls + 1)) (Z.to_nat (m_ls + 1))
                   (zip X_ls y_ls)) in
  let R_ts := SpMatrix csr (Z.to_nat (u_ts + 1), Z.to_nat (m_ts + 1))
                (coo_todense (Z.to_nat (u_ts + 1)) (Z.to_nat (m_ts + 1))
                   (zip X_ts y_ts)) in
  ∃ h' a b,
    parameter_tuning_matrices X_ls X_ts y_ls y_ts h = (h', inr (a, b)) ∧
    h `prefix_of` h' ∧
    h' !! a = Some (learning_matrix R_ls X_ls) ∧
    h' !! b = Some (learning_matrix R_ts X_ts).
Proof.
  intros Hl_ls Hl_ts Hv_ls Hv_ts Hu_ls Hm_ls Hu_ts Hm_ts R_ls R_ts.
  unfold parameter_tuning_matrices, np_hstack.
  rewrite !decide_True by done.
  rewrite bind_run. unfold from_result at 1. rewrite bind_run.
  unfold from_result at 1. rewrite bind_run.
  destruct (split_rating_matrix h X_ls y_ls u_ls m_ls Hl_ls Hv_ls Hu_ls Hm_ls)
    as [-> Hin_ls].
  rewrite bind_run.
  match goal with
  | |- context [build_rating_matrix _ ?h1] =>
      destruct (split_rating_matrix h1 X_ts y_ts u_ts m_ts Hl_ts Hv_ts Hu_ts Hm_ts)
        as [-> Hin_ts];
      set (h1' := h1)
  end.
  rewrite bind_run.
  match goal with
  | |- context [create_learning_matrices _ X_ls ?h2] => set (h2' := h2)
  end.
  assert (h2' !! S (length h) = Some R_ls) as HR_ls.
  { unfold h2'. apply lookup_app_l_Some. apply lookup_last_of_two. }
  assert (h2' !! S (length h1') = Some R_ts) as HR_ts
    by apply lookup_last_of_two.
  destruct (create_learning_matrices_ok h2' _ R_ls X_ls HR_ls Hin_ls)
    as (h3 & a & -> & Hp3 & Ha).
  rewrite bind_run.
  destruct (create_learning_matrices_ok h3 _ R_ts X_ts
              (prefix_lookup_Some _ _ _ _ HR_ts Hp3) Hin_ts)
    as (h4 & b & -> & Hp4 & Hb).
  exists h4, a, b. split_and!; [done| |by eapply prefix_lookup_Some|done].
  etrans; [|exact Hp4]. etrans; [|exact Hp3].
  unfold h2', h1'. etrans; by apply prefix_app_r.
Qed.

Lemma learning_matrix_entries (R : spmatrix) (pairs : list (Z * Z))
    (i : nat) (u m : Z) :
  wf_matrix R → pairs !! i = Some (u, m) →
  0 ≤ u < Z.of_nat (shape R).1 → 0 ≤ m < Z.of_nat (shape R).2 →
  (∀ j, (j < (shape R).2)%nat →
     entry (toarray (learning_matrix R pairs)) i j
     = entry (toarray R) (Z.to_nat u) j) ∧
  (∀ k, (k < (shape R).1)%nat →
     entry (toarray (learning_matrix R pairs)) i ((shape R).2 + k)
     = entry (toarray R) k (Z.to_nat m)).
Proof.
  intros Hwf Hi Hu Hm.
  assert (toarray (learning_matrix R pairs) !! i =
          Some (getrow (toarray R) (Z.to_nat u) ++ getcol (toarray R) (Z.to_nat m)))
    as Hrow.
  { unfold learning_matrix, feature_row. simpl.
    rewrite list_lookup_fmap, Hi. simpl.
    by rewrite !norm_index_nonneg by lia. }
  assert (length (getrow (toarray R) (Z.to_nat u)) = (shape R).2) as Hlen
    by (apply (getrow_length _ (shape R).1); [done|lia]).
  split.
  - intros j Hj. rewrite (entry_lookup _ _ _ _ Hrow).
    unfold getitem. by rewrite lookup_app_l by lia.
  - intros k Hk. rewrite (entry_lookup _ _ _ _ Hrow).
    unfold getitem at 1. rewrite lookup_app_r by lia.
    replace ((shape R).2 + k - length (getrow (toarray R) (Z.to_nat u)))%nat
      with k by lia.
    apply getitem_getcol. by destruct Hwf as [-> _].
Qed.

Lemma is_max_nonneg (m : Z) (pairs : list (Z * Z)) (f : Z * Z → Z) :
  (∀ p, valid_pair p → 0 ≤ f p) → Forall valid_pair pairs →
  is_max m (f <$> pairs) → 0 ≤ m.
Proof.
  intros Hf Hvalid [Hin _]. apply list_elem_of_fmap in Hin as (p & -> & Hp).
  rewrite Forall_forall in Hvalid. by apply Hf, Hvalid.
Qed.

(** The label of a pair of a split sits in the features of that pair. *)
Lemma split_labels_in_features (pairs : list (Z * Z)) (labels : list Z)
    (max_u max_m : Z) (i : nat) (u m y : Z) :
  length pairs = length labels → Forall valid_pair pairs → NoDup pairs →
  is_max max_u pairs.*1 → is_max max_m pairs.*2 →
  pairs !! i = Some (u, m) → labels !! i = Some y →
  let M := Z.to_nat (max_u + 1) in
  let N := Z.to_nat (max_m + 1) in
  let R := SpMatrix csr (M, N) (coo_todense M N (zip pairs labels)) in
  entry (toarray (learning_matrix R pairs)) i (Z.to_nat m) = y ∧
  entry (toarray (learning_matrix R pairs)) i (N + Z.to_nat u) = y.
Proof.
  intros Hlen Hvalid Hnodup Hu Hm Hi Hy M N R.
  assert ((u, m) ∈ pairs) as Hin by by eapply list_elem_of_lookup_2.
  rewrite Forall_forall in Hvalid. destruct (Hvalid _ Hin) as [H0u H0m].
  simpl in H0u, H0m.
  assert (u ≤ max_u).
  { destruct Hu as [_ Hu]. rewrite Forall_forall in Hu.
    apply Hu, list_elem_of_fmap. by exists (u, m). }
  assert (m ≤ max_m).
  { destruct Hm as [_ Hm]. rewrite Forall_forall in Hm.
    apply Hm, list_elem_of_fmap. by exists (u, m). }
  assert (wf_matrix R) as Hwf by apply dims_coo_todense.
  destruct (learning_matrix_entries R pairs i u m Hwf Hi) as [Hrow Hcol];
    [simpl; unfold M; lia|simpl; unfold N; lia|].
  assert (entry (toarray R) (Z.to_nat u) (Z.to_nat m) = y) as Hentry.
  { simpl. rewrite entry_coo_todense;
      [|apply zip_valid; by apply Forall_forall|unfold M; lia|unfold N; lia].
    rewrite !Z2Nat.id by done.
    rewrite (ratings_of_unique u m y); [simpl; lia| |].
    - by rewrite fst_zip by lia.
    - apply list_elem_of_lookup. exists i.
      by rewrite (lookup_zip_with pair pairs labels i), Hi; simpl; rewrite Hy. }
  split.
  - etrans; [apply (Hrow (Z.to_nat m)); simpl; unfold N; lia|done].
  - etrans; [apply (Hcol (Z.to_nat u)); simpl; unfold M; lia|done].
Qed.

(** X6: when both splits are non-empty with non-negative ids, the wiring of
    [parameter_tuning] never fails on an index (every pair of a split is
    within the matrix built from that split), and each learning matrix has
    one row per pair and (largest movie id + 1) + (largest user id + 1)
    columns, the largest ids being those of its own split: the two matrices
    agree in width only when these sums agree. *)
Theorem parameter_tuning_matrices_shapes (h : store) (X_ls X_ts : list (Z * Z))
    (y_ls y_ts : list Z) (u_ls m_ls u_ts m_ts : Z) :
  length X_ls = length y_ls → length X_ts = length y_ts →
  Forall valid_pair X_ls → Forall valid_pair X_ts →
  is_max u_ls X_ls.*1 → is_max m_ls X_ls.*2 →
  is_max u_ts X_ts.*1 → is_max m_ts X_ts.*2 →
  ∃ h' a b X_train X_test,
    parameter_tuning_matrices X_ls X_ts y_ls y_ts h = (h', inr (a, b)) ∧
    h' !! a = Some X_train ∧ h' !! b = Some X_test ∧
    (shape X_train).1 = length X_ls ∧
    Z.of_nat (shape X_train).2 = (m_ls + 1) + (u_ls + 1) ∧
    (shape X_test).1 = length X_ts ∧
    Z.of_nat (shape X_test).2 = (m_ts + 1) + (u_ts + 1).
Proof.
  intros Hl_ls Hl_ts Hv_ls Hv_ts Hu_ls Hm_ls Hu_ts Hm_ts.
  destruct (parameter_tuning_matrices_run h X_ls X_ts y_ls y_ts
              u_ls m_ls u_ts m_ts) as (h' & a & b & Hrun & _ & Ha & Hb);
    [done..|].
  pose proof (is_max_nonneg u_ls X_ls fst ltac:(by intros ? [? ?]) Hv_ls Hu_ls).
  pose proof (is_max_nonneg m_ls X_ls snd ltac:(by intros ? [? ?]) Hv_ls Hm_ls).
  pose proof (is_max_nonneg u_ts X_ts fst ltac:(by intros ? [? ?]) Hv_ts Hu_ts).
  pose proof (is_max_nonneg m_ts X_ts snd ltac:(by intros ? [? ?]) Hv_ts Hm_ts).
  eexists h', a, b, _, _.
  split_and!; [exact Hrun|exact Ha|exact Hb|..]; simpl; lia.
Qed.

Lemma parameter_tuning_matrices_shapes_witness :
  ∃ h' a b X_train X_test,
    parameter_tuning_matrices [(0, 0); (1, 1)] [(0, 0)] [5; 3] [4] []
      = (h', inr (a, b)) ∧
    h' !! a = Some X_train ∧ h' !! b = Some X_test ∧
    (shape X_train).1 = 2%nat ∧
    Z.of_nat (shape X_train).2 = (1 + 1) + (1 + 1) ∧
    (shape X_test).1 = 1%nat ∧
    Z.of_nat (shape X_test).2 = (0 + 1) + (0 + 1).
Proof.
  apply (parameter_tuning_matrices_shapes [] [(0, 0); (1, 1)] [(0, 0)]
           [5; 3] [4] 1 1 0 0).
  - reflexivity.
  - reflexivity.
  - repeat constructor; simpl; lia.
  - repeat constructor; simpl; lia.
  - split; [change (1 ∈ [0; 1]); right; left|repeat constructor; simpl; lia].
  - split; [change (1 ∈ [0; 1]); right; left|repeat constructor; simpl; lia].
  - split; [change (0 ∈ [0]); left|repeat constructor; simpl; lia].
  - split; [change (0 ∈ [0]); left|repeat constructor; simpl; lia].
Defined.

(** X7: the features of a pair contain its own label: when the pairs of a
    split are pairwise distinct, row i of the split's learning matrix holds
    the label y_i at column m_i (in the user's row of ratings) and again at
    column (largest movie id + 1) + u_i (in the movie's column of ratings);
    this holds for the training split and for the test split. *)
Theorem parameter_tuning_matrices_labels (h : store) (X_ls X_ts : list (Z * Z))
    (y_ls y_ts : list Z) (u_ls m_ls u_ts m_ts : Z) :
  length X_ls = length y_ls → length X_ts = length y_ts →
  Forall valid_pair X_ls → Forall valid_pair X_ts →
  NoDup X_ls → NoDup X_ts →
  is_max u_ls X_ls.*1 → is_max m_ls X_ls.*2 →
  is_max u_ts X_ts.*1 → is_max m_ts X_ts.*2 →
  ∃ h' a b X_train X_test,
    parameter_tuning_matrices X_ls X_ts y_ls y_ts h = (h', inr (a, b)) ∧
    h' !! a = Some X_train ∧ h' !! b = Some X_test ∧
    (∀ i u m y, X_ls !! i = Some (u, m) → y_ls !! i = Some y →
       entry (toarray X_train) i (Z.to_nat m) = y ∧
       entry (toarray X_train) i (Z.to_nat (m_ls + 1) + Z.to_nat u) = y) ∧
    (∀ i u m y, X_ts !! i = Some (u, m) → y_ts !! i = Some y →
       entry (toarray X_test) i (Z.to_nat m) = y ∧
       entry (toarray X_test) i (Z.to_nat (m_ts + 1) + Z.to_nat u) = y).
Proof.
  intros Hl_ls Hl_ts Hv_ls Hv_ts Hn_ls Hn_ts Hu_ls Hm_ls Hu_ts Hm_ts.
  destruct (parameter_tuning_matrices_run h X_ls X_ts y_ls y_ts
              u_ls m_ls u_ts m_ts) as (h' & a & b & Hrun & _ & Ha & Hb);
    [done..|].
  eexists h', a, b, _, _.
  split_and!; [exact Hrun|exact Ha|exact Hb|..].
  - intros i u m y Hi Hy.
    by apply (split_labels_in_features X_ls y_ls u_ls m_ls i u m y).
  - intros i u m y Hi Hy.
    by apply (split_labels_in_features X_ts y_ts u_ts m_ts i u m y).
Qed.

Lemma parameter_tuning_matrices_labels_witness :
  ∃ h' a b X_train X_test,
    parameter_tuning_matrices [(0, 0); (1, 1)] [(0, 0)] [5; 3] [4] []
      = (h', inr (a, b)) ∧
    h' !! a = Some X_train ∧ h' !! b = Some X_test ∧
    (∀ i u m y, [(0, 0); (1, 1)] !! i = Some (u, m) → [5; 3] !! i = Some y →
       entry (toarray X_train) i (Z.to_nat m) = y ∧
       entry (toarray X_train) i (Z.to_nat (1 + 1) + Z.to_nat u) = y) ∧
    (∀ i u m y, [(0, 0)] !! i = Some (u, m) → [4] !! i = Some y →
       entry (toarray X_test) i (Z.to_nat m) = y ∧
       entry (toarray X_test) i (Z.to_nat (0 + 1) + Z.to_nat u) = y).
Proof.
  apply (parameter_tuning_matrices_labels [] [(0, 0); (1, 1)] [(0, 0)]
           [5; 3] [4] 1 1 0 0).
  - reflexivity.
  - reflexivity.
  - repeat constructor; simpl; lia.
  - repeat constructor; simpl; lia.
  - apply (bool_decide_unpack _). reflexivity.
  - apply (bool_decide_unpack _). reflexivity.
  - split; [change (1 ∈ [0; 1]); right; left|repeat constructor; simpl; lia].
  - split; [change (1 ∈ [0; 1]); right; left|repeat constructor; simpl; lia].
  - split; [change (0 ∈ [0]); left|repeat constructor; simpl; lia].
  - split; [change (0 ∈ [0]); left|repeat constructor; simpl; lia].
Defined.

Lemma build_rating_matrix_total (h : store) (triplets : list (Z * Z * Z)) :
  (∃ h' x, build_rating_matrix triplets h = (h', inr x)) ∨
  build_rating_matrix triplets h = (h, inl ValueError).
Proof.
  destruct (decide (triplets = [])) as [->|Hne]; [by right|].
  destruct (valid_triplets_or_not triplets) as [Hvalid|Hbad].
  - left. destruct (build_rating_matrix_ok h triplets Hne Hvalid)
      as (_ & _ & h' & x & _ & _ & Hrun & _). by exists h', x.
  - right. apply build_rating_matrix_err. by right.
Qed.

Lemma zip_invalid (pairs : list (Z * Z)) (labels : list Z) :
  length pairs = length labels → Exists (λ p, ¬ valid_pair p) pairs →
  Exists (λ t, ¬ valid_triplet t) (zip pairs labels).
Proof.
  intros Hlen Hbad. revert labels Hlen.
  induction Hbad as [p pairs Hp|p pairs _ IH]; intros [|y labels] Hlen;
    simplify_eq/=.
  - by left.
  - right. by apply IH.
Qed.

(** X8: the wiring of [parameter_tuning] fails with [ValueError] when a
    split is empty or holds a negative id: the shape of its rating matrix
    cannot be inferred, or its coordinates are refused. *)
Theorem parameter_tuning_matrices_refuses (h : store) (X_ls X_ts : list (Z * Z))
    (y_ls y_ts : list Z) :
  length X_ls = length y_ls → length X_ts = length y_ts →
  X_ls = [] ∨ X_ts = [] ∨
  Exists (λ p, p.1 < 0 ∨ p.2 < 0) X_ls ∨ Exists (λ p, p.1 < 0 ∨ p.2 < 0) X_ts →
  (parameter_tuning_matrices X_ls X_ts y_ls y_ts h).2 = inl ValueError.
Proof.
  intros Hl_ls Hl_ts Hbad.
  assert (∀ (pairs : list (Z * Z)) labels h0,
            length pairs = length labels →
            pairs = [] ∨ Exists (λ p, p.1 < 0 ∨ p.2 < 0) pairs →
            build_rating_matrix (zip pairs labels) h0 = (h0, inl ValueError))
    as Hrefuse.
  { intros pairs labels h0 Hlen [->|Hex]; [done|].
    apply build_rating_matrix_err. right. apply zip_invalid; [done|].
    eapply Exists_impl; [exact Hex|]. intros p. unfold valid_pair. lia. }
  unfold parameter_tuning_matrices, np_hstack.
  rewrite !decide_True by done.
  rewrite bind_run. unfold from_result at 1. rewrite bind_run.
  unfold from_result at 1. rewrite bind_run.
  destruct (build_rating_matrix_total h (zip X_ls y_ls))
    as [(h1 & x1 & Hrun1)|Hrun1]; rewrite Hrun1; [|done].
  rewrite bind_run.
  rewrite Hrefuse; [done|done|].
  destruct Hbad as [->|[->|[Hex|Hex]]]; [|by left| |by right].
  - by rewrite (Hrefuse [] y_ls h Hl_ls) in Hrun1 by by left.
  - by rewrite (Hrefuse X_ls y_ls h Hl_ls) in Hrun1 by by right.
Qed.

Lemma parameter_tuning_matrices_refuses_witness :
  (parameter_tuning_matrices [(0, 0); (1, 1)] [] [5; 3] [] [ex_R]).2
  = inl ValueError.
Proof.
  apply (parameter_tuning_matrices_refuses [ex_R] [(0, 0); (1, 1)] [] [5; 3] []).
  - reflexivity.
  - reflexivity.
  - right. left. reflexivity.
Defined.

(** ** [make_submission]: the file it leaves *)

Lemma string_length_app (s t : string) :
  String.length (s +:+ t) = (String.length s + String.length t)%nat.
Proof.
  induction s as [|c s IH]; [done|].
  change (S (String.length (s +:+ t)) = S (String.length s + String.length t)).
  by rewrite IH.
Qed.

Lemma string_app_inj_r (s1 s2 t : string) : s1 +:+ t = s2 +:+ t → s1 = s2.
Proof.
  revert s2. induction s1 as [|c s1 IH]; intros [|c' s2] Heq.
  - done.
  - apply (f_equal String.length) in Heq.
    change (String.length t = S (String.length (s2 +:+ t))) in Heq.
    rewrite string_length_app in Heq. lia.
  - apply (f_equal String.length) in Heq.
    change (S (String.length (s1 +:+ t)) = String.length t) in Heq.
    rewrite string_length_app in Heq. lia.
  - change (String c (s1 +:+ t) = String c' (s2 +:+ t)) in Heq.
    injection Heq as -> Heq. f_equal. by apply IH.
Qed.

Section submission_frame.
Context {prediction : Type}.
Variable isnan : prediction → bool.
Variable format_prediction : prediction → string.

Lemma rows_split (rows : list ((Z * Z) * prediction)) :
  Forall (λ r, isnan r.2 = false) rows ∨
  ∃ good bad rest, rows = good ++ bad :: rest ∧
                   Forall (λ r, isnan r.2 = false) good ∧ isnan bad.2 = true.
Proof.
  induction rows as [|r rows IH]; [by left|].
  destruct (isnan r.2) eqn:Hr.
  - right. exists [], r, rows. by split_and!.
  - destruct IH as [Hall|(good & bad & rest & -> & Hgood & Hbad)].
    + left. by constructor.
    + right. exists (r :: good), bad, rest. split_and!; [done| |done].
      by constructor.
Qed.

(** Every call leaves the world it found, with one file replaced: the file
    at the submission path, which starts with the header. *)
Lemma make_submission_world (y_predict : list prediction)
    (user_movie_ids : list (Z * Z)) (file_name : string) (date : bool)
    (w : world) :
  ∃ content res,
    make_submission isnan format_prediction y_predict user_movie_ids
      file_name date w
    = (World (<[submission_path file_name date w := header +:+ content]>
                (files w)) (clock w), res).
Proof.
  destruct (rows_split (zip user_movie_ids y_predict))
    as [Hall|(good & bad & rest & Hzip & Hgood & Hbad)].
  - eexists _, _. by apply make_submission_ok.
  - eexists _, _.
    by apply (make_submission_raise isnan format_prediction _ _ _ _ _
                good rest bad).
Qed.

Lemma make_submission_discards (y_predict : list prediction)
    (user_movie_ids : list (Z * Z)) (file_name : string) (date : bool)
    (fs : gmap string string) (now old : string) :
  make_submission isnan format_prediction y_predict user_movie_ids
    file_name date
    (World (<[submission_path file_name date (World fs now) := old]> fs) now)
  = make_submission isnan format_prediction y_predict user_movie_ids
      file_name date (World fs now).
Proof.
  unfold make_submission, submission_path. rewrite !bind_run.
  destruct date; simpl; unfold open_w; rewrite !bind_run; simpl;
    by rewrite insert_insert_eq.
Qed.



(** X11: a call overwrites: whatever the file at the submission path held
    before, the call behaves, and leaves the world, as if the file had not
    existed. *)
Theorem make_submission_overwrites (y_predict : list prediction)
    (user_movie_ids : list (Z * Z)) (file_name : string) (date : bool)
    (fs : gmap string string) (now old : string) :
  make_submission isnan format_prediction y_predict user_movie_ids
    file_name date
    (World (<[submission_path file_name date (World fs now) := old]> fs) now)
  = make_submission isnan format_prediction y_predict user_movie_ids
      file_name date (World fs now).
Proof.
  unfold make_submission, submission_path. rewrite !bind_run.
  destruct date; simpl; unfold open_w; rewrite !bind_run; simpl;
    by rewrite insert_insert_eq.
Qed.

(** X12: two submissions under the same file name while the clock shows
    the same minute go to the same file: the second call replaces what the
    first wrote, as if the first had not been made (the two calls of
    [evaluate] in [parameter_tuning] are in this situation). *)
Theorem make_submission_twice (y1 y2 : list prediction)
    (ids1 ids2 : list (Z * Z)) (file_name : string) (date : bool) (w : world) :
  make_submission isnan format_prediction y2 ids2 file_name date
    (make_submission isnan format_prediction y1 ids1 file_name date w).1
  = make_submission isnan format_prediction y2 ids2 file_name date w.
Proof.
  destruct (make_submission_world y1 ids1 file_name date w)
    as (content & res & ->).
  destruct w as [fs now]. simpl.
  apply (make_submission_discards y2 ids2 file_name date fs now).
Qed.

End submission_frame.


(** X13: for a given file name, dated submissions go to the same file
    exactly when the clock shows the same minute; undated submissions go to
    the same file exactly when their file names are equal. *)
Theorem submission_path_inj (file_name1 file_name2 : string) (w1 w2 : world) :
  (submission_path file_name1 true w1 = submission_path file_name1 true w2
   ↔ clock w1 = clock w2) ∧
  (submission_path file_name1 false w1 = submission_path file_name2 false w2
   ↔ file_name1 = file_name2).
Proof.
  unfold submission_path. split; split.
  - intros Heq%string_app_inj_r.
    by do 2 apply (inj (String.append _)) in Heq.
  - by intros ->.
  - by intros Heq%string_app_inj_r.
  - by intros ->.
Qed.

(** ** [make_submission]: the lines identify their pair *)

Lemma no_char_split (c : ascii) (s1 s2 t1 t2 : string) :
  no_char c s1 → no_char c s2 →
  s1 +:+ String c t1 = s2 +:+ String c t2 → s1 = s2 ∧ t1 = t2.
Proof.
  revert s2. induction s1 as [|c1 s1 IH]; intros [|c2 s2] H1 H2 Heq.
  - by injection Heq as ->.
  - change (String c t1 = String c2 (s2 +:+ String c t2)) in Heq.
    injection Heq as -> _. by destruct H2.
  - change (String c1 (s1 +:+ String c t1) = String c t2) in Heq.
    injection Heq as -> _. by destruct H1.
  - change (String c1 (s1 +:+ String c t1) = String c2 (s2 +:+ String c t2))
      in Heq.
    injection Heq as -> Heq. destruct H1 as [_ H1]. destruct H2 as [_ H2].
    destruct (IH s2 H1 H2 Heq) as [-> ->]. done.
Qed.

Lemma pretty_N_go_no_char (c : ascii) (x : N) (s : string) :
  (∀ d, pretty_N_char d ≠ c) → no_char c s → no_char c (pretty_N_go x s).
Proof.
  intros Hc. revert s. induction (N.lt_wf_0 x) as [x _ IH]; intros s Hs.
  assert (x = 0 ∨ 0 < x)%N as [->|Hx] by lia.
  - by rewrite pretty_N_go_0.
  - rewrite pretty_N_go_step by done. apply IH.
    + by apply N.div_lt.
    + split; [apply Hc|done].
Qed.

Lemma pretty_Z_no_char (c : ascii) (z : Z) :
  (∀ d, pretty_N_char d ≠ c) → c ≠ "-"%char → no_char c (pretty z).
Proof.
  intros Hc Hdash.
  assert (∀ p : positive, no_char c (pretty p)) as Hpos.
  { intros p. unfold pretty, pretty_positive, pretty, pretty_N.
    rewrite decide_False by done. by apply pretty_N_go_no_char. }
  destruct z as [|p|p]; unfold pretty, pretty_Z.
  - split; [apply (Hc 0%N)|done].
  - apply Hpos.
  - change (no_char c (String "-" (pretty p))). split; [done|apply Hpos].
Qed.

Lemma pretty_Z_no_underscore (z : Z) : no_char "_" (pretty z).
Proof.
  apply pretty_Z_no_char; [|done].
  intros d. unfold pretty_N_char. by repeat case_match.
Qed.

Lemma pretty_Z_no_comma (z : Z) : no_char "," (pretty z).
Proof.
  apply pretty_Z_no_char; [|done].
  intros d. unfold pretty_N_char. by repeat case_match.
Qed.

(** X14: a line of the submission file identifies its pair: two lines are
    equal only if they are for the same user id and the same movie id, with
    the same prediction text; so distinct pairs never give the same line,
    and the key [{user_id}_{movie_id}] is never ambiguous. *)
Theorem format_line_inj {prediction : Type}
    (format_prediction : prediction → string)
    (u1 m1 u2 m2 : Z) (p1 p2 : prediction) :
  format_line format_prediction u1 m1 p1 = format_line format_prediction u2 m2 p2 →
  u1 = u2 ∧ m1 = m2 ∧ format_prediction p1 = format_prediction p2.
Proof.
  unfold format_line. intros Heq.
  change (pretty u1 +:+ String "_" (pretty m1 +:+ String ","
            (format_prediction p1 +:+ nl))
          = pretty u2 +:+ String "_" (pretty m2 +:+ String ","
              (format_prediction p2 +:+ nl)))
    in Heq.
  apply no_char_split in Heq as [Hu Heq]; [|apply pretty_Z_no_underscore..].
  apply no_char_split in Heq as [Hm Heq]; [|apply pretty_Z_no_comma..].
  apply string_app_inj_r in Heq.
  split_and!; [by apply (inj pretty)|by apply (inj pretty)|done].
Qed.

Lemma format_line_inj_witness :
  11 = 11 ∧ 1 = 1 ∧ ex_format (Some "4.2") = ex_format (Some "4.2").
Proof.
  apply (format_line_inj ex_format 11 1 11 1 (Some "4.2") (Some "4.2")).
  reflexivity.
Defined.

(** ** [build_rating_matrix]: zero ratings and the order of the triplets *)

Lemma add_at_zero (B : list (list Z)) (i j : nat) : add_at B i j 0 = B.
Proof.
  unfold add_at. apply list_alter_id. intros row.
  apply list_alter_id. intros x. lia.
Qed.

Lemma add_at_comm (B : list (list Z)) (i j i' j' : nat) (v v' : Z) :
  add_at (add_at B i j v) i' j' v' = add_at (add_at B i' j' v') i j v.
Proof.
  unfold add_at. destruct (decide (i' = i)) as [->|Hi].
  - rewrite !list_alter_alter_eq. apply list_alter_ext; [|done].
    intros row _. simpl. destruct (decide (j' = j)) as [->|Hj].
    + rewrite !list_alter_alter_eq. apply list_alter_ext; [|done].
      intros x _. simpl. lia.
    + by apply list_alter_alter_ne.
  - by apply list_alter_alter_ne.
Qed.

Lemma foldl_add_at_permutation (l1 l2 : list (Z * Z * Z)) (B : list (list Z)) :
  l1 ≡ₚ l2 →
  foldl (λ B '(i, j, v), add_at B (Z.to_nat i) (Z.to_nat j) v) B l1
  = foldl (λ B '(i, j, v), add_at B (Z.to_nat i) (Z.to_nat j) v) B l2.
Proof.
  intros Hperm. revert B.
  induction Hperm as [|t l1 l2 _ IH|[[u m] v] [[u' m'] v'] l|l1 l2 l3 _ IH1 _ IH2];
    intros B; simpl.
  - done.
  - apply IH.
  - by rewrite add_at_comm.
  - by rewrite IH1.
Qed.

Lemma is_max_permutation (m : Z) (l1 l2 : list Z) :
  l1 ≡ₚ l2 → is_max m l1 → is_max m l2.
Proof. intros Hperm [Hin Hle]. split; by rewrite <- Hperm. Qed.

Lemma build_rating_matrix_outcome (h : store) (triplets : list (Z * Z * Z))
    (max_u max_m : Z) :
  Forall valid_triplet triplets →
  is_max max_u ((λ t, t.1.1) <$> triplets) →
  is_max max_m ((λ t, t.1.2) <$> triplets) →
  outcome (build_rating_matrix triplets h)
  = inr (Some (SpMatrix csr (Z.to_nat (max_u + 1), Z.to_nat (max_m + 1))
                 (coo_todense (Z.to_nat (max_u + 1)) (Z.to_nat (max_m + 1))
                    triplets))).
Proof.
  intros Hvalid Hu Hm. unfold outcome.
  rewrite (build_rating_matrix_run h triplets max_u max_m Hvalid
             (is_max_np_max _ _ Hu) (is_max_np_max _ _ Hm)).
  simpl. by rewrite lookup_last_of_two.
Qed.

(** X15: the order of the triplets does not matter: two arrays holding the
    same triplets in different orders give the same outcome, with the same
    matrix (duplicates are summed, and a sum does not depend on the order). *)
Theorem build_rating_matrix_permutation (h : store)
    (triplets1 triplets2 : list (Z * Z * Z)) :
  triplets1 ≡ₚ triplets2 →
  outcome (build_rating_matrix triplets1 h)
  = outcome (build_rating_matrix triplets2 h).
Proof.
  intros Hperm.
  destruct (decide (triplets1 = [])) as [->|Hne].
  { by apply Permutation_nil_l in Hperm as ->. }
  destruct (valid_triplets_or_not triplets1) as [Hvalid|Hbad].
  - destruct (np_max_is_max ((λ t, t.1.1) <$> triplets1)) as [max_u Hu];
      [by destruct triplets1|].
    destruct (np_max_is_max ((λ t, t.1.2) <$> triplets1)) as [max_m Hm];
      [by destruct triplets1|].
    rewrite (build_rating_matrix_outcome h triplets1 max_u max_m) by done.
    rewrite (build_rating_matrix_outcome h triplets2 max_u max_m).
    + unfold coo_todense. by rewrite (foldl_add_at_permutation _ _ _ Hperm).
    + by rewrite <- Hperm.
    + eapply is_max_permutation; [|exact Hu]. by rewrite Hperm.
    + eapply is_max_permutation; [|exact Hm]. by rewrite Hperm.
  - rewrite !build_rating_matrix_err; [done| |by right].
    right. by rewrite <- Hperm.
Qed.

Lemma build_rating_matrix_permutation_witness :
  outcome (build_rating_matrix [(0, 0, 5); (1, 1, 3); (0, 0, 2)] [])
  = outcome (build_rating_matrix [(0, 0, 2); (1, 1, 3); (0, 0, 5)] []).
Proof.
  apply (build_rating_matrix_permutation []
           [(0, 0, 5); (1, 1, 3); (0, 0, 2)] [(0, 0, 2); (1, 1, 3); (0, 0, 5)]).
  etrans; [apply perm_swap|]. etrans; [apply perm_skip, perm_swap|].
  apply perm_swap.
Defined.

(** X16: a rating of 0 is no rating: a triplet with rating 0, for ids not
    larger than the largest ids of the other triplets, leaves the outcome
    as it is without that triplet. *)
Theorem build_rating_matrix_zero_rating (h : store)
    (triplets1 triplets2 : list (Z * Z * Z)) (u m max_u max_m : Z) :
  Forall valid_triplet (triplets1 ++ triplets2) →
  is_max max_u ((λ t, t.1.1) <$> triplets1 ++ triplets2) →
  is_max max_m ((λ t, t.1.2) <$> triplets1 ++ triplets2) →
  0 ≤ u ≤ max_u → 0 ≤ m ≤ max_m →
  outcome (build_rating_matrix (triplets1 ++ (u, m, 0) :: triplets2) h)
  = outcome (build_rating_matrix (triplets1 ++ triplets2) h).
Proof.
  intros Hvalid [Hinu Hleu] [Hinm Hlem] Hu Hm.
  rewrite (build_rating_matrix_outcome h (triplets1 ++ triplets2) max_u max_m)
    by done.
  rewrite (build_rating_matrix_outcome h _ max_u max_m).
  - unfold coo_todense. rewrite !foldl_app. simpl. by rewrite add_at_zero.
  - apply Forall_app in Hvalid as [H1 H2]. apply Forall_app. split; [done|].
    constructor; [|done]. unfold valid_triplet. simpl. lia.
  - rewrite fmap_app in *. rewrite fmap_cons. simpl. split.
    + apply elem_of_app in Hinu as [?|?]; apply elem_of_app;
        [by left|right; by right].
    + apply Forall_app in Hleu as [H1 H2]. apply Forall_app. split; [done|].
      constructor; [lia|done].
  - rewrite fmap_app in *. rewrite fmap_cons. simpl. split.
    + apply elem_of_app in Hinm as [?|?]; apply elem_of_app;
        [by left|right; by right].
    + apply Forall_app in Hlem as [H1 H2]. apply Forall_app. split; [done|].
      constructor; [lia|done].
Qed.

Lemma build_rating_matrix_zero_rating_witness :
  outcome (build_rating_matrix ([(0, 0, 5)] ++ (0, 1, 0) :: [(1, 1, 3)]) [])
  = outcome (build_rating_matrix ([(0, 0, 5)] ++ [(1, 1, 3)]) []).
Proof.
  apply (build_rating_matrix_zero_rating [] [(0, 0, 5)] [(1, 1, 3)] 0 1 1 1).
  - repeat constructor; simpl; lia.
  - split; [change (1 ∈ [0; 1]); right; left|repeat constructor; simpl; lia].
  - split; [change (1 ∈ [0; 1]); right; left|repeat constructor; simpl; lia].
  - lia.
  - lia.
Defined.
